(** * Verification of the UFC living-dataset merge

    The repository keeps a cumulative ("living") CSV per data type and
    merges each fresh scrape ("latest") into it.  Two versions of
    [merge_ufc_data] exist:

    - [espn preconditioner data merge/postscrapemerge.py], the current
      script: fighters are matched on the [Name] column, the rows of a
      fighter found in the latest scrape replace the living ones, rows of
      fighters that vanished are kept, exact duplicate rows are dropped;
    - [espn preconditioner data merge/backup data do not touch/postscrapemerge.py],
      the earlier script: rows are matched on the composite key
      [Player|Date|Opponent], common rows are updated field by field, the
      result is sorted.

    Both are embedded below, the first in [Module Current], the second in
    [Module Legacy], over a small model of the pandas operations they
    use ([Module Pandas]).  The functions around them follow: the loop
    over the data types and [main] of the current script
    ([Module CurrentBatch]), the batch and the two renaming helpers of
    the earlier one ([Module LegacyBatch]), and [prepare_files] of
    [ufc_merge_runner.py] ([Module Runner]).

    Modelling conventions.
    - A cell holds text; a missing cell (pandas NaN) is the absence of the
      column in the row's map, so [r !! c = None] reads "NaN".  Numeric
      dtype inference of [read_csv] is not modelled.
    - NaN is a value like any other in [set(...)], [isin], dict keys and
      [drop_duplicates]: it equals itself there, as the one NaN object
      pandas fills missing cells with does.
    - A file is modelled by the frame [read_csv] returns for it and
      [to_csv] followed by [read_csv] is the identity.
    - The merge touches three paths (living, latest, and the backup of
      the day); the file system is a record of these three slots.  The
      log file written by the logging handlers is not part of it.
    - The functions that loop over the data types work on a directory, a
      finite map from a data type and a kind of file to the frame stored
      ([Module Disk]); one run falls within one day, so a data type has
      one backup path.
    - The lines [input()] reads are a list of answers; an exception that
      leaves a function is the result [None]. *)

From Stdlib Require Import ZArith Lia Ascii String.
From stdpp Require Import gmap strings list sorting.

Local Open Scope Z_scope.

(** ** Lists: keeping the first of each class of equal elements *)

Section KeepFirst.
Context {A : Type} (eqb : A → A → bool).

(** [keep_first] is the order pandas gives to [unique()] and
    [drop_duplicates()] (keep='first'): an element stays when no
    earlier element equals it. *)
Fixpoint keep_first (l : list A) : list A :=
  match l with
  | [] => []
  | x :: t => x :: filter (λ y, eqb x y = false) (keep_first t)
  end.
End KeepFirst.

Module Pandas.

(** A row maps column names to text; an absent column is NaN. *)
Abbreviation Row := (gmap string string).
Abbreviation cell := (option string).

Record DataFrame := mkDF { columns : list string; rows : list Row }.

(** [pd.DataFrame()] *)
Definition DataFrame0 : DataFrame := mkDF [] [].

(** [len(df)] *)
Definition len (df : DataFrame) : Z := Z.of_nat (length (rows df)).

(** [df.empty]: some axis has length zero. *)
Definition empty (df : DataFrame) : bool :=
  match rows df, columns df with
  | [], _ | _, [] => true
  | _, _ => false
  end.

(** Equality of two rows on a list of columns; NaN equals NaN, as in
    [duplicated] and [drop_duplicates]. *)
Definition row_eqb (cols : list string) (r1 r2 : Row) : bool :=
  forallb (λ c, bool_decide (r1 !! c = r2 !! c)) cols.

(** [series.unique()] *)
Definition unique (l : list cell) : list cell :=
  keep_first (λ x y, bool_decide (x = y)) l.

(** [df.duplicated(subset=cols, keep=False)]: the mask of the rows that
    agree with another row on [cols]. *)
Definition duplicated (cols : list string) (df : DataFrame) : list bool :=
  (λ r, bool_decide (1 < length (filter (λ r', row_eqb cols r r' = true) (rows df)))%nat)
    <$> rows df.

(** [df[mask]] *)
Fixpoint select_mask (mask : list bool) (l : list Row) : list Row :=
  match mask, l with
  | b :: m, r :: t => if b then r :: select_mask m t else select_mask m t
  | _, _ => []
  end.

(** [df.drop_duplicates()]: full-row equality, first occurrence kept. *)
Definition drop_duplicates (df : DataFrame) : DataFrame :=
  mkDF (columns df) (keep_first (row_eqb (columns df)) (rows df)).

(** [pd.concat([a, b])]: rows of [a] then rows of [b]; the columns of
    [a] followed by those of [b] not yet present; cells of a column a
    row does not have are NaN, which the row maps give for free. *)
Definition concat (a b : DataFrame) : DataFrame :=
  mkDF (columns a ++ filter (λ c, c ∉ columns a) (columns b))
       (rows a ++ rows b).

End Pandas.

(** ** The files of one data type *)

Module Files.
Import Pandas.

(** [<type>_living.csv], [<type>_latest.csv] and the dated backup
    [<type>_living_<today>.csv]; [None] when the path does not exist. *)
Record FS := mkFS {
  living_file : option DataFrame;
  latest_file : option DataFrame;
  backup_file : option DataFrame
}.

(** [to_csv(living_file)] and [shutil.copy(_, living_file)] *)
Definition write_living (fs : FS) (df : DataFrame) : FS :=
  mkFS (Some df) (latest_file fs) (backup_file fs).

(** [shutil.copy(living_file, backup_file)] *)
Definition write_backup (fs : FS) (df : DataFrame) : FS :=
  mkFS (living_file fs) (latest_file fs) (Some df).

End Files.

(** ** The current script: [postscrapemerge.py] *)

Module Current.
Import Pandas Files.

(** The messages [validate_data] returns.  [DuplicatedEntries n] is the
    one whose text starts with "Warning:", the first two start with
    "Error:". *)
Inductive Message :=
| EmptyFrame
| MissingColumns (missing : list string)
| DuplicatedEntries (fighters : nat)
| ValidationPassed.

Definition is_warning (m : Message) : bool :=
  match m with DuplicatedEntries _ => true | _ => false end.

Definition required_columns : list string := ["Name"; "Division Title"].

(** [validate_data(df, data_type)]; [data_type] only labels the text of
    the message. *)
Definition validate_data (df : DataFrame) : bool * Message :=
  if empty df then (false, EmptyFrame)
  else
    let missing_columns := filter (λ c, c ∉ columns df) required_columns in
    if negb (bool_decide (missing_columns = [])) then (false, MissingColumns missing_columns)
    else
      let duplicate_mask := duplicated ["Name"; "Division Title"] df in
      if existsb id duplicate_mask then
        let duplicates :=
          unique ((λ r : Row, r !! "Name") <$> select_mask duplicate_mask (rows df)) in
        (false, DuplicatedEntries (length duplicates))
      else (true, ValidationPassed).

Inductive Status := success | skipped | failed.

Inductive Error :=
| LatestNotFound
| Invalid (m : Message)
| KeyError (c : string)
| TypeError.

(** [result_stats['backup_created']]: [None], the path of the backup,
    or the "Would create: ..." note of a dry run. *)
Inductive BackupNote := NoBackup | BackupCreated | WouldCreate.

Record Stats := mkStats {
  status : Status;
  previous_records : Z;
  new_records : Z;
  total_records : Z;
  new_unique_records : Z;
  preserved_records : Z;
  error : option Error;
  backup_created : BackupNote;
  dry_run : bool
}.

(** [set(df['Name'].unique())] *)
Definition fighters (df : DataFrame) : gset cell :=
  list_to_set (unique ((λ r : Row, r !! "Name") <$> rows df)).

(** [purged_fighters = living_fighters - latest_fighters] *)
Definition purged_fighters (living_data latest_data : DataFrame) : gset cell :=
  fighters living_data ∖ fighters latest_data.

(** [if purged_fighters:] *)
Definition any_purged (living_data latest_data : DataFrame) : bool :=
  negb (bool_decide (purged_fighters living_data latest_data = ∅)).

(** [purged_data]: the living rows of the purged fighters, or
    [pd.DataFrame()] when there is none. *)
Definition purged_data (living_data latest_data : DataFrame) : DataFrame :=
  if any_purged living_data latest_data then
    mkDF (columns living_data)
         (filter (λ r : Row, r !! "Name" ∈ purged_fighters living_data latest_data)
                 (rows living_data))
  else DataFrame0.

(** [combined_data] after [drop_duplicates()] (lines 190-200). *)
Definition combined_data (living_data latest_data : DataFrame) : DataFrame :=
  let purged := purged_data living_data latest_data in
  drop_duplicates (if negb (empty purged) then concat latest_data purged
                   else latest_data).

(** [', '.join(sample_fighters)] raises TypeError on a NaN name. *)
Definition join_ok (sample_fighters : list cell) : bool :=
  forallb (λ x : cell, bool_decide (is_Some x)) sample_fighters.

Section Merge.
(** [list(s)] for a Python set [s]: the order is the interpreter's. *)
Variable set_order : gset cell → list cell.

(** [merge_ufc_data(living_file, latest_file, backup, force, dry_run)]:
    the statistics returned and the files afterwards.  A KeyError or
    TypeError raised inside the [try] block ends in the [except] branch
    with the counts recorded so far. *)
Definition merge_ufc_data (fs : FS) (backup force dry_run : bool) : Stats * FS :=
  match living_file fs with
  | None =>
      match latest_file fs with
      | None => (mkStats failed 0 0 0 0 0 (Some LatestNotFound) NoBackup dry_run, fs)
      | Some latest =>
          let fs' := if negb dry_run then write_living fs latest else fs in
          let n := len latest in
          (mkStats success 0 n n n 0 None NoBackup dry_run, fs')
      end
  | Some living_data =>
      let '(note, fs1) :=
        if backup && negb dry_run then
          match backup_file fs with
          | None => (BackupCreated, write_backup fs living_data)
          | Some _ => (NoBackup, fs)
          end
        else if backup && dry_run then (WouldCreate, fs)
        else (NoBackup, fs) in
      let previous := len living_data in
      let '(is_valid, message) := validate_data living_data in
      if negb is_valid && negb force then
        (mkStats failed previous 0 0 0 0 (Some (Invalid message)) note dry_run, fs1)
      else
        match latest_file fs1 with
        | None =>
            (mkStats skipped previous 0 0 0 0 (Some LatestNotFound) note dry_run, fs1)
        | Some latest_data =>
            let new := len latest_data in
            let '(is_valid, message) := validate_data latest_data in
            if negb is_valid && negb force then
              (mkStats failed previous new 0 0 0 (Some (Invalid message)) note dry_run, fs1)
            else if negb (bool_decide ("Name" ∈ columns living_data)
                          && bool_decide ("Name" ∈ columns latest_data)) then
              (mkStats failed previous new 0 0 0 (Some (KeyError "Name")) note dry_run, fs1)
            else
              let purged := purged_fighters living_data latest_data in
              let preserved :=
                if any_purged living_data latest_data
                then len (purged_data living_data latest_data) else 0 in
              if any_purged living_data latest_data
                 && negb (join_ok (take 5 (set_order purged))) then
                (mkStats failed previous new 0 0 preserved (Some TypeError) note dry_run, fs1)
              else
                let combined := combined_data living_data latest_data in
                let after_count := len combined in
                let new_unique := Z.max 0 (after_count - len living_data) in
                let fs2 := if negb dry_run then write_living fs1 combined else fs1 in
                (mkStats success previous new after_count new_unique preserved None
                         note dry_run, fs2)
        end
  end.
End Merge.

End Current.

(** ** The earlier script: [backup data do not touch/postscrapemerge.py] *)

Module Legacy.
Import Pandas Files.

(** [str(x)] of a cell: the text, or "nan" for NaN. *)
Definition str (x : cell) : string :=
  match x with Some s => s | None => "nan" end.

(** [pd.isna(x)] *)
Definition isna (x : cell) : bool :=
  match x with Some _ => false | None => true end.

(** The ASCII characters [str.strip()] removes (white space outside
    ASCII is not modelled). *)
Definition is_space (a : ascii) : bool :=
  match a with
  | "009" | "010" | "011" | "012" | "013"
  | "028" | "029" | "030" | "031" | " " => true
  | _ => false
  end%char.

Fixpoint lstrip (s : string) : string :=
  match s with
  | String a t => if is_space a then lstrip t else s
  | EmptyString => EmptyString
  end.

(** [s.strip()] *)
Definition strip (s : string) : string :=
  String.rev (lstrip (String.rev (lstrip s))).

Definition composite_key_column : string := "composite_key".

(** [df['Player'] + '|' + df['Date'].astype(str) + '|' + df['Opponent']]
    for one row: NaN as soon as the player or the opponent is NaN, a NaN
    date reads "nan". *)
Definition composite_key (r : Row) : cell :=
  match r !! "Player", r !! "Opponent" with
  | Some player, Some opponent =>
      Some (player +:+ "|" +:+ str (r !! "Date") +:+ "|" +:+ opponent)
  | _, _ => None
  end.

(** [df.at[index, c] = v] on the row at [index]. *)
Definition set_cell (c : string) (v : cell) (r : Row) : Row :=
  match v with Some s => <[c := s]> r | None => delete c r end.

(** [df['composite_key'] = ...]: the column is appended unless the frame
    already has one of that name. *)
Definition assign_composite_key (df : DataFrame) : DataFrame :=
  mkDF (if bool_decide (composite_key_column ∈ columns df) then columns df
        else columns df ++ [composite_key_column])
       ((λ r, set_cell composite_key_column (composite_key r) r) <$> rows df).

(** The key stored in a row. *)
Definition key_of (r : Row) : cell := r !! composite_key_column.

(** [set(df['composite_key'])] *)
Definition keys (df : DataFrame) : gset cell :=
  list_to_set (key_of <$> rows df).

(** The three columns the key is built from exist (else KeyError). *)
Definition has_key_columns (df : DataFrame) : bool :=
  forallb (λ c, bool_decide (c ∈ columns df)) ["Player"; "Date"; "Opponent"].

Definition key_columns : list string :=
  ["Player"; "Date"; "Opponent"; "Event"; "Result"; "composite_key"].

(** [latest_records_dict]: a later row of a key replaces an earlier one. *)
Definition latest_records_dict (latest_data : DataFrame) : gmap cell Row :=
  foldl (λ d r, <[key_of r := r]> d) ∅ (rows latest_data).

(** The test of lines 113-116 on one column of a living and a latest row. *)
Definition should_update (living latest : cell) : bool :=
  let latest_value := strip (str latest) in
  let living_value := strip (str living) in
  ((String.eqb living_value "" || String.eqb living_value "0" || isna living)
   && (negb (String.eqb latest_value "") && negb (String.eqb latest_value "0")
       && negb (isna latest)))
  || (negb (String.eqb latest_value living_value)
      && negb (String.eqb latest_value "") && negb (String.eqb latest_value "0")
      && negb (isna latest)).

(** The loop over [data_columns] for one common record: every test reads
    [living_row], the row as it was before the loop.  The tests
    [col in latest_row] and [col in living_row] are on the columns of the
    two frames. *)
Definition update_row (latest_columns merged_columns data_columns : list string)
    (living_row latest_row : Row) : Row :=
  foldl (λ acc col,
           if bool_decide (col ∈ latest_columns) && bool_decide (col ∈ merged_columns)
              && should_update (living_row !! col) (latest_row !! col)
           then set_cell col (latest_row !! col) acc
           else acc)
        living_row data_columns.

(** The body of the loop over the common records (lines 97-119) for the
    row [living_row] of [merged_data]. *)
Definition update_record (common_keys : gset cell) (dict : gmap cell Row)
    (latest_columns merged_columns data_columns : list string)
    (living_row : Row) : Row :=
  if bool_decide (key_of living_row ∈ common_keys) then
    match dict !! key_of living_row with
    | Some latest_row =>
        update_row latest_columns merged_columns data_columns living_row latest_row
    | None => living_row
    end
  else living_row.

(** [data_columns]: the columns of latest that are not key columns. *)
Definition data_columns (latest_data : DataFrame) : list string :=
  filter (λ c, c ∉ key_columns) (columns latest_data).

(** [df.drop('composite_key', axis=1)] *)
Definition drop_composite_key (df : DataFrame) : DataFrame :=
  mkDF (filter (λ c, c ≠ composite_key_column) (columns df))
       ((λ r : Row, delete composite_key_column r) <$> rows df).

(** Order of a sort column: text order, reversed when descending, NaN
    last either way (na_position='last'). *)
Definition cell_compare (descending : bool) (a b : cell) : comparison :=
  match a, b with
  | Some x, Some y => if descending then String.compare y x else String.compare x y
  | Some _, None => Lt
  | None, Some _ => Gt
  | None, None => Eq
  end.

(** [by=['Player', 'Date'], ascending=[True, False]] *)
Definition row_leb (r1 r2 : Row) : bool :=
  match cell_compare false (r1 !! "Player") (r2 !! "Player") with
  | Lt => true
  | Gt => false
  | Eq => match cell_compare true (r1 !! "Date") (r2 !! "Date") with
          | Gt => false
          | _ => true
          end
  end.

Fixpoint insert_row (r : Row) (l : list Row) : list Row :=
  match l with
  | [] => [r]
  | r' :: t => if row_leb r r' then r :: r' :: t else r' :: insert_row r t
  end.

(** [df.sort_values(by=['Player', 'Date'], ascending=[True, False])]: a
    stable sort, rows with equal sort keys keep their order. *)
Definition sort_values (df : DataFrame) : DataFrame :=
  mkDF (columns df) (foldr insert_row [] (rows df)).

(** The merged frame of lines 51-130, before it is saved. *)
Definition merged_frame (living_data0 latest_data0 : DataFrame) : DataFrame :=
  let living_data := assign_composite_key living_data0 in
  let latest_data := assign_composite_key latest_data0 in
  let living_keys := keys living_data in
  let latest_keys := keys latest_data in
  let common_keys := living_keys ∩ latest_keys in
  let only_in_latest := latest_keys ∖ living_keys in
  let records_to_add :=
    mkDF (columns latest_data)
         (filter (λ r, key_of r ∈ only_in_latest) (rows latest_data)) in
  let merged_data := concat living_data records_to_add in
  let merged_data :=
    if bool_decide (0 < size common_keys)%nat then
      mkDF (columns merged_data)
           (update_record common_keys (latest_records_dict latest_data)
                          (columns latest_data) (columns merged_data)
                          (data_columns latest_data)
              <$> rows merged_data)
    else merged_data in
  sort_values (drop_composite_key merged_data).

(** [merge_ufc_data(living_file, latest_file, backup)]: [Some true] and
    [Some false] are the values returned, [None] stands for an exception
    that leaves the function (a latest file that cannot be read, a
    missing key column); the files afterwards come with it. *)
Definition merge_ufc_data (fs : FS) (backup : bool) : option bool * FS :=
  match living_file fs with
  | None =>
      match latest_file fs with
      | None => (Some false, fs)
      | Some latest => (Some true, write_living fs latest)
      end
  | Some living_data =>
      let fs1 := if backup then write_backup fs living_data else fs in
      match latest_file fs1 with
      | None => (None, fs1)
      | Some latest_data =>
          if has_key_columns living_data && has_key_columns latest_data then
            (Some true, write_living fs1 (merged_frame living_data latest_data))
          else (None, fs1)
      end
  end.

End Legacy.

(** ** Several data types on one disk *)

Module Disk.
Import Pandas Files.

(** The files of a data type [t] in the working directory: [t.csv],
    [t_original.csv], [t_latest.csv], [t_living.csv] and the backup of
    the day [t_living_<today>.csv].  The data types are names whose files
    are pairwise distinct, as those of [DATA_TYPES] are, the only names
    the command line accepts. *)
Inductive Kind := Raw | Original | Latest | Living | Backup.

#[global] Instance Kind_eq_dec : EqDecision Kind.
Proof. solve_decision. Defined.

Definition Kind_code (k : Kind) : nat :=
  match k with Raw => 0 | Original => 1 | Latest => 2 | Living => 3 | Backup => 4 end%nat.

Definition Kind_of_code (n : nat) : option Kind :=
  match n with
  | 0 => Some Raw | 1 => Some Original | 2 => Some Latest | 3 => Some Living
  | 4 => Some Backup | _ => None
  end%nat.

#[global] Instance Kind_countable : Countable Kind.
Proof. apply (inj_countable Kind_code Kind_of_code). by intros []. Defined.

(** The directory: which files exist, and what each holds. *)
Abbreviation Disk := (gmap (string * Kind) DataFrame).

(** [os.path.exists] on a file of a data type. *)
Definition exists_file (disk : Disk) (data_type : string) (k : Kind) : bool :=
  bool_decide (is_Some (disk !! (data_type, k))).

(** The three files one merge of [data_type] works on. *)
Definition files (disk : Disk) (data_type : string) : FS :=
  mkFS (disk !! (data_type, Living)) (disk !! (data_type, Latest))
       (disk !! (data_type, Backup)).

Definition put (k : Kind) (data_type : string) (file : option DataFrame)
    (disk : Disk) : Disk :=
  match file with
  | Some content => <[(data_type, k) := content]> disk
  | None => delete (data_type, k) disk
  end.

(** The disk once a merge of [data_type] has left its three files as
    [fs]. *)
Definition store (disk : Disk) (data_type : string) (fs : FS) : Disk :=
  put Living data_type (living_file fs)
      (put Latest data_type (latest_file fs)
           (put Backup data_type (backup_file fs) disk)).

Definition DATA_TYPES : list string := ["ground_data"; "clinch_data"; "striking_data"].

End Disk.

(** ** The current script: [process_all_files] and [main] *)

Module CurrentBatch.
Import Pandas Files Disk.

(** [results['stats'][data_type]]: the statistics of the merge, or the
    short entry of a data type that has no latest file. *)
Inductive Entry := Merged (result : Current.Stats) | LatestFileNotFound.

(** [results], without its timestamp. *)
Record Results := mkResults {
  success : list string;
  failed : list string;
  skipped : list string;
  stats : gmap string Entry
}.

Section Process.
Variable set_order : gset cell → list cell.

(** The body of the loop of [process_all_files] for one data type. *)
Definition process_one (backup force dry_run : bool)
    (state : Results * Disk) (data_type : string) : Results * Disk :=
  let '(results, disk) := state in
  if exists_file disk data_type Latest then
    let '(result, fs') :=
      Current.merge_ufc_data set_order (files disk data_type) backup force dry_run in
    let stats' := <[data_type := Merged result]> (stats results) in
    let results' :=
      match Current.status result with
      | Current.success =>
          mkResults (success results ++ [data_type]) (failed results)
                    (skipped results) stats'
      | Current.skipped =>
          mkResults (success results) (failed results)
                    (skipped results ++ [data_type]) stats'
      | Current.failed =>
          mkResults (success results) (failed results ++ [data_type])
                    (skipped results) stats'
      end in
    (results', store disk data_type fs')
  else
    (mkResults (success results) (failed results) (skipped results ++ [data_type])
               (<[data_type := LatestFileNotFound]> (stats results)),
     disk).

(** [data_types_to_process = types if types else DATA_TYPES]: no list
    and the empty list both stand for all data types. *)
Definition data_types_to_process (types : option (list string)) : list string :=
  match types with
  | Some (t :: ts) => t :: ts
  | Some [] | None => DATA_TYPES
  end.

(** [process_all_files(backup, force, dry_run, types)] *)
Definition process_all_files (backup force dry_run : bool)
    (types : option (list string)) (disk : Disk) : Results * Disk :=
  foldl (process_one backup force dry_run) (mkResults [] [] [] ∅, disk)
        (data_types_to_process types).

(** The parsed command line of [main]. *)
Record Args := mkArgs {
  no_backup : bool;
  force : bool;
  dry_run : bool;
  types : option (list string);
  verbose : bool
}.

(** [main()]: the exit code and the disk afterwards. *)
Definition main (args : Args) (disk : Disk) : Z * Disk :=
  let '(results, disk') :=
    process_all_files (negb (no_backup args)) (force args) (dry_run args)
                      (types args) disk in
  (match success results with [] => 1 | _ :: _ => 0 end, disk').
End Process.

End CurrentBatch.

(** ** The earlier script: the batch and the two renaming helpers *)

Module LegacyBatch.
Import Pandas Files Disk.

(** The loop of [batch_process_ufc_data]: [None] when a merge raised,
    which ends the batch where it stands. *)
Fixpoint batch_loop (types : list string) (success_list : list string)
    (disk : Disk) : option (list string) * Disk :=
  match types with
  | [] => (Some success_list, disk)
  | data_type :: rest =>
      if exists_file disk data_type Latest then
        match Legacy.merge_ufc_data (files disk data_type) true with
        | (Some true, fs') =>
            batch_loop rest (success_list ++ [data_type]) (store disk data_type fs')
        | (Some false, fs') => batch_loop rest success_list (store disk data_type fs')
        | (None, fs') => (None, store disk data_type fs')
        end
      else batch_loop rest success_list disk
  end.

(** [batch_process_ufc_data(data_dir)] on the content of [data_dir]. *)
Definition batch_process_ufc_data (disk : Disk) : option (list string) * Disk :=
  batch_loop DATA_TYPES [] disk.

(** [c.lower()] on an ASCII character. *)
Definition lower_ascii (a : ascii) : ascii :=
  let n := nat_of_ascii a in
  if ((65 <=? n) && (n <=? 90))%nat then ascii_of_nat (n + 32) else a.

(** [s.lower()]; only ASCII letters change, which is all that matters for
    the comparison with ['y']. *)
Fixpoint lower (s : string) : string :=
  match s with
  | EmptyString => EmptyString
  | String a t => String (lower_ascii a) (lower t)
  end.

(** The loop shared by [rename_current_to_latest] (from [t.csv] to
    [t_latest.csv]) and [rename_original_to_living] (from
    [t_original.csv] to [t_living.csv]).  [answers] are the lines
    [input()] will read; running out of them is the EOFError that ends
    the function ([None]).  The result carries the lines not read. *)
Fixpoint rename_loop (src dst : Kind) (types : list string) (answers : list string)
    (renamed : list string) (disk : Disk)
    : option (list string) * list string * Disk :=
  match types with
  | [] => (Some renamed, answers, disk)
  | data_type :: rest =>
      match disk !! (data_type, src) with
      | Some content =>
          if exists_file disk data_type dst then
            match answers with
            | [] => (None, [], disk)
            | overwrite :: answers' =>
                if negb (String.eqb (lower overwrite) "y") then
                  rename_loop src dst rest answers' renamed disk
                else
                  rename_loop src dst rest answers' (renamed ++ [data_type])
                              (<[(data_type, dst) := content]> disk)
            end
          else
            rename_loop src dst rest answers (renamed ++ [data_type])
                        (<[(data_type, dst) := content]> disk)
      | None => rename_loop src dst rest answers renamed disk
      end
  end.

Definition rename_current_to_latest (answers : list string) (disk : Disk)
    : option (list string) * list string * Disk :=
  rename_loop Raw Latest DATA_TYPES answers [] disk.

Definition rename_original_to_living (answers : list string) (disk : Disk)
    : option (list string) * list string * Disk :=
  rename_loop Original Living DATA_TYPES answers [] disk.

End LegacyBatch.

(** ** The runner: [ufc_merge_runner.py] *)

Module Runner.
Import Pandas Files Disk.

(** The body of the loop of [prepare_files]: a freshly scraped [t.csv]
    is copied over [t_latest.csv]. *)
Definition prepare_step (state : list string * Disk) (data_type : string)
    : list string * Disk :=
  let '(renamed, disk) := state in
  match disk !! (data_type, Raw) with
  | Some content => (renamed ++ [data_type], <[(data_type, Latest) := content]> disk)
  | None => (renamed, disk)
  end.

(** [prepare_files()]: the data types copied, and the directory
    afterwards. *)
Definition prepare_files (disk : Disk) : list string * Disk :=
  foldl prepare_step ([], disk) DATA_TYPES.

End Runner.


(** * Vocabulary of the statements *)

Import Pandas Files.

(** The [Name] column of a frame. *)
Definition names (df : DataFrame) : list cell :=
  (λ r : Row, r !! "Name") <$> rows df.

(** The living rows the current merge preserves. *)
Definition purged_rows (L N : DataFrame) : list Row :=
  filter (λ r : Row, r !! "Name" ∈ Current.purged_fighters L N) (rows L).

(** The columns of the frame the current merge writes. *)
Definition combined_columns (L N : DataFrame) : list string :=
  match purged_rows L N with
  | [] => columns N
  | _ => columns N ++ filter (λ c, c ∉ columns N) (columns L)
  end.

(** The columns [validate_data] looks for duplicates on. *)
Definition identity_columns : list string := ["Name"; "Division Title"].

(** No two rows of the frame share [Name] and [Division Title]. *)
Definition no_duplicates (df : DataFrame) : Prop :=
  ∀ r, r ∈ rows df →
    (length (filter (λ r', row_eqb identity_columns r r' = true) (rows df)) ≤ 1)%nat.

(** The composite keys of the rows of a frame. *)
Definition composite_keys (df : DataFrame) : list cell :=
  Legacy.composite_key <$> rows df.

(** A row with its key stored, as [assign_composite_key] leaves it. *)
Definition keyed (r : Row) : Row :=
  Legacy.set_cell Legacy.composite_key_column (Legacy.composite_key r) r.


(** The rows of [merged_data] after the concat of line 79. *)
Definition base_rows (L N : DataFrame) : list Row :=
  (keyed <$> rows L) ++
  filter (λ r, Legacy.key_of r ∈
               Legacy.keys (Legacy.assign_composite_key N)
               ∖ Legacy.keys (Legacy.assign_composite_key L))
         (keyed <$> rows N).

(** The columns of [merged_data] after the concat of line 79. *)
Definition base_columns (L N : DataFrame) : list string :=
  columns (Legacy.assign_composite_key L) ++
  filter (λ c, c ∉ columns (Legacy.assign_composite_key L))
         (columns (Legacy.assign_composite_key N)).

(** The update of one row of [merged_data] in the merge of [L] and [N]. *)
Definition update_of (L N : DataFrame) : Row → Row :=
  Legacy.update_record
    (Legacy.keys (Legacy.assign_composite_key L)
     ∩ Legacy.keys (Legacy.assign_composite_key N))
    (Legacy.latest_records_dict (Legacy.assign_composite_key N))
    (columns (Legacy.assign_composite_key N)) (base_columns L N)
    (Legacy.data_columns (Legacy.assign_composite_key N)).





(** The column [c] of a stored file, empty when the file is absent. *)
Definition stored_column (c : string) (file : option DataFrame) : list cell :=
  from_option (λ df, (λ r : Row, r !! c) <$> rows df) [] file.

(** ** Example files *)

Definition row (l : list (string * string)) : Row := list_to_map l.

Definition fighter_columns : list string := ["Name"; "Division Title"; "wins"].

Definition fighter (name division wins : string) : Row :=
  row [("Name", name); ("Division Title", division); ("wins", wins)].

Definition bout_columns : list string :=
  ["Player"; "Date"; "Opponent"; "Result"; "wins"].

Definition bout (player date opponent result wins : string) : Row :=
  row [("Player", player); ("Date", date); ("Opponent", opponent);
       ("Result", result); ("wins", wins)].

Definition living_a : DataFrame :=
  mkDF fighter_columns [fighter "A" "LW" "5"; fighter "C" "LW" "2"].

Definition latest_a : DataFrame :=
  mkDF fighter_columns [fighter "A" "LW" "6"; fighter "B" "LW" "1"].

(** A is in both files, B is new, C has vanished from the scrape. *)
Definition fs_a : FS := mkFS (Some living_a) (Some latest_a) None.

(** No living file yet. *)
Definition fs_first : FS := mkFS None (Some latest_a) None.

Definition latest_dup : DataFrame :=
  mkDF fighter_columns [fighter "A" "LW" "5"; fighter "A" "LW" "6"].

(** The latest file has two rows for (A, LW). *)
Definition fs_dup : FS :=
  mkFS (Some (mkDF fighter_columns [fighter "C" "LW" "2"])) (Some latest_dup) None.



(** The living file has two rows for A, in two divisions. *)
Definition fs_two : FS :=
  mkFS (Some (mkDF fighter_columns [fighter "A" "LW" "5"; fighter "A" "WW" "3"]))
       (Some latest_a) None.

(** A changed division between the two files. *)
Definition fs_division : FS :=
  mkFS (Some (mkDF fighter_columns [fighter "A" "LW" "5"]))
       (Some (mkDF fighter_columns [fighter "A" "WW" "6"])) None.

Definition bouts_living : DataFrame :=
  mkDF bout_columns [bout "A" "2020-01-01" "X" "W" "0";
                     bout "C" "2019-05-05" "Y" "L" "2"].

Definition bouts_latest : DataFrame :=
  mkDF bout_columns [bout "A" "2020-01-01" "X" "W" "6";
                     bout "B" "2021-01-01" "Z" "W" "1"].

Definition lfs_a : FS := mkFS (Some bouts_living) (Some bouts_latest) None.



(** No living file, and a latest file that lists B before A. *)
Definition lfs_first_unsorted : FS :=
  mkFS None
       (Some (mkDF bout_columns [bout "B" "2021-01-01" "Z" "W" "1";
                                 bout "A" "2020-01-01" "X" "W" "6"])) None.

(** Two runs of the current script on [fs_a] with the same latest file. *)
Definition first_run_a : Current.Stats * FS :=
  Current.merge_ufc_data elements fs_a true false false.




(** ** Vocabulary and examples of the further properties *)

(** The merge of data type [t] in directory [disk] finds a latest file
    and succeeds. *)
Definition mergeable (set_order : gset cell → list cell) (backup force dry_run : bool)
    (disk : Disk.Disk) (t : string) : Prop :=
  Disk.exists_file disk t Disk.Latest = true
  ∧ Current.status
      (Current.merge_ufc_data set_order (Disk.files disk t) backup force dry_run).1
    = Current.success.

(** The earlier merge of data type [t] in directory [disk], as the batch
    calls it, finds a latest file and raises. *)
Definition raises (disk : Disk.Disk) (t : string) : Prop :=
  Disk.exists_file disk t Disk.Latest = true
  ∧ (Legacy.merge_ufc_data (Disk.files disk t) true).1 = None.

(** The text holds the separator of the composite key. *)
Fixpoint has_bar (s : string) : bool :=
  match s with
  | EmptyString => false
  | String a t => Ascii.eqb a "|" || has_bar t
  end.

(** Neither the player nor the date, as the key spells them, holds the
    separator. *)
Definition bar_free (r : Row) : bool :=
  negb (has_bar (Legacy.str (r !! "Player")))
  && negb (has_bar (Legacy.str (r !! "Date"))).

(** A living file and no latest file. *)
Definition fs_no_latest : FS := mkFS (Some living_a) None None.

(** A living file without the [Name] column. *)
Definition living_no_name : DataFrame :=
  mkDF ["Division Title"; "wins"] [row [("Division Title", "LW"); ("wins", "5")]].

Definition fs_no_name : FS := mkFS (Some living_no_name) (Some latest_a) None.

(** A living file with a row whose [Name] is NaN. *)
Definition living_nan : DataFrame :=
  mkDF fighter_columns
       [fighter "A" "LW" "5"; row [("Division Title", "LW"); ("wins", "2")]].

Definition fs_nan : FS := mkFS (Some living_nan) (Some latest_a) None.

(** No living file, and a latest file with two rows for (A, LW). *)
Definition fs_first_dup : FS := mkFS None (Some latest_dup) None.

(** A directory: [ground_data] has a living and a latest file,
    [clinch_data] only a latest file, [striking_data] nothing. *)
Definition disk_a : Disk.Disk :=
  Disk.store (Disk.store ∅ "ground_data" fs_a) "clinch_data" fs_first.

(** The same directory for the earlier script. *)
Definition ldisk_a : Disk.Disk :=
  Disk.store (Disk.store ∅ "ground_data" lfs_a) "clinch_data" lfs_first_unsorted.




(** A freshly scraped [ground_data.csv] beside an older latest file and
    the living file. *)
Definition disk_raw : Disk.Disk :=
  <[("ground_data", Disk.Raw) := latest_a]>
    (Disk.store ∅ "ground_data"
       (mkFS (Some living_a) (Some (mkDF fighter_columns [fighter "A" "LW" "5"])) None)).

(** * Proofs *)

Ltac by_computation := refine (bool_decide_unpack _ _); vm_compute; exact I.

(** ** Keeping the first of each class *)

Section KeepFirstFacts.

Context {A : Type} (eqb : A → A → bool).

Lemma keep_first_subseteq (l : list A) x : x ∈ keep_first eqb l → x ∈ l.
Proof.
  revert x. induction l as [|a t IH]; simpl; intros x Hx; [done|].
  apply elem_of_cons in Hx as [->|Hx]; [left|right].
  apply list_elem_of_filter in Hx as [_ Hx]. by apply IH.
Qed.

Lemma keep_first_length (l : list A) : (length (keep_first eqb l) ≤ length l)%nat.
Proof.
  induction l as [|a t IH]; simpl; [lia|].
  pose proof (length_filter (λ y, eqb a y = false) (keep_first eqb t)). lia.
Qed.


Hypothesis eqb_refl : ∀ x, eqb x x = true.

Hypothesis eqb_sym : ∀ x y, eqb x y = true → eqb y x = true.

Hypothesis eqb_trans : ∀ x y z, eqb x y = true → eqb y z = true → eqb x z = true.

Lemma eqb_class x y z : eqb y z = true → eqb x y = eqb x z.
Proof.
  intros Hyz. destruct (eqb x y) eqn:Hxy, (eqb x z) eqn:Hxz; try done.
  - rewrite (eqb_trans _ _ _ Hxy Hyz) in Hxz. done.
  - rewrite (eqb_trans _ _ _ Hxz (eqb_sym _ _ Hyz)) in Hxy. done.
Qed.

Lemma keep_first_representative (l : list A) x :
  x ∈ l → ∃ y, y ∈ keep_first eqb l ∧ eqb y x = true.
Proof.
  induction l as [|a t IH]; simpl; intros Hx; [by apply elem_of_nil in Hx|].
  apply elem_of_cons in Hx as [->|Hx].
  - exists a. split; [left | apply eqb_refl].
  - destruct (IH Hx) as (y & Hy & Hyx).
    destruct (eqb a y) eqn:Hay.
    + exists a. split; [left | by eapply eqb_trans].
    + exists y. split; [|done]. right. by apply list_elem_of_filter.
Qed.

Lemma keep_first_filter (p : A → Prop) `{!∀ x, Decision (p x)} (l : list A) :
  (∀ x y, eqb x y = true → p x ↔ p y) →
  filter p (keep_first eqb l) = keep_first eqb (filter p l).
Proof.
  intros Hp. induction l as [|a t IH]; simpl; [done|].
  destruct (decide (p a)) as [Ha|Ha].
  - rewrite !filter_cons_True by done. simpl. f_equal.
    rewrite <- IH, !list_filter_filter. apply list_filter_iff. tauto.
  - rewrite !filter_cons_False by done. rewrite <- IH.
    rewrite list_filter_filter. apply list_filter_iff.
    intros y. split; [tauto|]. intros Hy. split; [done|].
    destruct (eqb a y) eqn:E; [|done]. destruct Ha. by apply (Hp a y).
Qed.

Lemma keep_first_idemp (l : list A) :
  keep_first eqb (keep_first eqb l) = keep_first eqb l.
Proof.
  induction l as [|a t IH]; simpl; [done|]. f_equal.
  rewrite <- keep_first_filter.
  - rewrite IH, list_filter_filter. apply list_filter_iff. tauto.
  - intros x y Hxy. by rewrite (eqb_class a x y Hxy).
Qed.

End KeepFirstFacts.

(** ** Rows and [drop_duplicates] *)

Section PandasFacts.

Lemma row_eqb_spec cols (r1 r2 : Row) :
  row_eqb cols r1 r2 = true ↔ ∀ c, c ∈ cols → r1 !! c = r2 !! c.
Proof.
  unfold row_eqb. rewrite forallb_forall. split.
  - intros H c Hc. apply list_elem_of_In, H in Hc. by apply bool_decide_eq_true in Hc.
  - intros H c Hc. apply bool_decide_eq_true, H. by apply list_elem_of_In.
Qed.

Lemma row_eqb_refl cols (r : Row) : row_eqb cols r r = true.
Proof. by apply row_eqb_spec. Qed.

Lemma row_eqb_sym cols (r1 r2 : Row) :
  row_eqb cols r1 r2 = true → row_eqb cols r2 r1 = true.
Proof. rewrite !row_eqb_spec. intros H c Hc. symmetry. by apply H. Qed.

Lemma row_eqb_trans cols (r1 r2 r3 : Row) :
  row_eqb cols r1 r2 = true → row_eqb cols r2 r3 = true → row_eqb cols r1 r3 = true.
Proof.
  rewrite !row_eqb_spec. intros H1 H2 c Hc. by rewrite H1, H2.
Qed.

Lemma elem_of_unique (l : list cell) x : x ∈ unique l ↔ x ∈ l.
Proof.
  split; [apply keep_first_subseteq|]. intros Hx.
  destruct (keep_first_representative (λ x y : cell, bool_decide (x = y)) 
              ltac:(intros; by apply bool_decide_eq_true)
              ltac:(intros ??? ->%bool_decide_eq_true ->%bool_decide_eq_true; by apply bool_decide_eq_true)
              l x Hx) as (y & Hy & E).
  apply bool_decide_eq_true in E. by subst.
Qed.

Lemma drop_duplicates_subseteq df (r : Row) :
  r ∈ rows (drop_duplicates df) → r ∈ rows df.
Proof. apply keep_first_subseteq. Qed.

Lemma drop_duplicates_representative df (r : Row) :
  r ∈ rows df →
  ∃ r', r' ∈ rows (drop_duplicates df) ∧ ∀ c, c ∈ columns df → r' !! c = r !! c.
Proof.
  intros Hr.
  destruct (keep_first_representative (row_eqb (columns df)) (row_eqb_refl _)
              (row_eqb_trans _) (rows df) r Hr) as (y & Hy & E).
  exists y. split; [done|]. by apply row_eqb_spec.
Qed.

End PandasFacts.

(** ** The current script: what a successful merge writes *)

Section CurrentFacts.

Import Current.

Lemma elem_of_fighters df k : k ∈ fighters df ↔ k ∈ names df.
Proof. unfold fighters. by rewrite elem_of_list_to_set, elem_of_unique. Qed.

Lemma elem_of_purged_fighters L N k :
  k ∈ purged_fighters L N ↔ k ∈ names L ∧ k ∉ names N.
Proof.
  unfold purged_fighters. by rewrite elem_of_difference, !elem_of_fighters.
Qed.

Lemma purged_rows_nil L N : any_purged L N = false → purged_rows L N = [].
Proof.
  unfold any_purged, purged_rows. intros H%negb_false_iff%bool_decide_eq_true.
  rewrite H. induction (rows L) as [|r t IH]; [done|].
  rewrite filter_cons_False; [done|]. apply not_elem_of_empty.
Qed.

Lemma rows_purged_data L N : rows (purged_data L N) = purged_rows L N.
Proof.
  unfold purged_data. destruct (any_purged L N) eqn:E; [done|].
  by rewrite purged_rows_nil.
Qed.

Lemma combined_data_eq L N :
  "Name" ∈ columns L →
  combined_data L N =
  mkDF (combined_columns L N)
       (keep_first (row_eqb (combined_columns L N)) (rows N ++ purged_rows L N)).
Proof.
  intros HL. unfold combined_data, combined_columns.
  pose proof (rows_purged_data L N) as Hrows.
  destruct (purged_rows L N) as [|r t] eqn:E.
  - assert (empty (purged_data L N) = true) as ->.
    { unfold empty. by rewrite Hrows. }
    simpl. unfold drop_duplicates. by rewrite app_nil_r.
  - assert (purged_data L N = mkDF (columns L) (r :: t)) as ->.
    { unfold purged_data in *. destruct (any_purged L N); [by rewrite <- E|done]. }
    assert (empty (mkDF (columns L) (r :: t)) = false) as ->.
    { unfold empty. simpl. destruct (columns L); [by apply elem_of_nil in HL|done]. }
    done.
Qed.

Lemma columns_combined_data L N c :
  "Name" ∈ columns L → c ∈ columns N → c ∈ columns (combined_data L N).
Proof.
  intros HL Hc. rewrite combined_data_eq by done. simpl. unfold combined_columns.
  destruct (purged_rows L N); [done|]. apply elem_of_app. by left.
Qed.

Variable set_order : gset cell → list cell.

Lemma merge_first_run fs backup force dry N :
  living_file fs = None → latest_file fs = Some N →
  merge_ufc_data set_order fs backup force dry =
  (mkStats success 0 (len N) (len N) (len N) 0 None NoBackup dry,
   if dry then fs else write_living fs N).
Proof. intros HL HN. unfold merge_ufc_data. rewrite HL, HN. by destruct dry. Qed.

Lemma merge_success_inv fs backup force dry st fs' L :
  living_file fs = Some L →
  merge_ufc_data set_order fs backup force dry = (st, fs') →
  status st = success →
  ∃ N, latest_file fs = Some N ∧ "Name" ∈ columns L ∧ "Name" ∈ columns N
    ∧ (force = false → (validate_data L).1 = true ∧ (validate_data N).1 = true)
    ∧ living_file fs' = Some (if dry then L else combined_data L N)
    ∧ latest_file fs' = Some N
    ∧ previous_records st = len L
    ∧ new_records st = len N
    ∧ total_records st = len (combined_data L N)
    ∧ new_unique_records st = Z.max 0 (len (combined_data L N) - len L)
    ∧ preserved_records st = len (purged_data L N)
    ∧ any_purged L N && negb (join_ok (take 5 (set_order (purged_fighters L N)))) = false.
Proof.
  intros HL Hrun Hst. unfold merge_ufc_data in Hrun. rewrite HL in Hrun.
  set (b := (if backup && negb dry then _ else _)) in Hrun.
  assert (living_file b.2 = Some L ∧ latest_file b.2 = latest_file fs) as [Hb1 Hb2].
  { subst b. destruct backup, dry; simpl; try done. by destruct (backup_file fs). }
  destruct b as [note fs1]. simpl in Hb1, Hb2.
  destruct (validate_data L) as [vL mL] eqn:EL.
  destruct (negb vL && negb force) eqn:E1; [by simplify_eq|].
  rewrite Hb2 in Hrun.
  destruct (latest_file fs) as [N|] eqn:HN; [|by simplify_eq].
  exists N. destruct (validate_data N) as [vN mN] eqn:EN.
  destruct (negb vN && negb force) eqn:E2; [by simplify_eq|].
  destruct (bool_decide ("Name" ∈ columns L) && bool_decide ("Name" ∈ columns N)) eqn:E3;
    simpl in Hrun; [|by simplify_eq].
  apply andb_true_iff in E3 as [HcL%bool_decide_eq_true HcN%bool_decide_eq_true].
  destruct (any_purged L N && negb (join_ok _)) eqn:E4; [by simplify_eq|].
  simplify_eq. simpl.
  split_and!; try done.
  - intros ->. simpl. by destruct vL, vN.
  - destruct dry; simpl; [done|done].
  - destruct dry; simpl; [done|]. by rewrite Hb2.
  - unfold purged_data. by destruct (any_purged L N).
Qed.

Lemma merge_general_run fs backup force dry L N :
  living_file fs = Some L → latest_file fs = Some N →
  (force = false → (validate_data L).1 = true ∧ (validate_data N).1 = true) →
  "Name" ∈ columns L → "Name" ∈ columns N →
  any_purged L N && negb (join_ok (take 5 (set_order (purged_fighters L N)))) = false →
  ∃ note fs',
    merge_ufc_data set_order fs backup force dry =
      (mkStats success (len L) (len N) (len (combined_data L N))
               (Z.max 0 (len (combined_data L N) - len L))
               (len (purged_data L N)) None note dry, fs')
    ∧ living_file fs' = Some (if dry then L else combined_data L N)
    ∧ latest_file fs' = Some N.
Proof.
  intros HL HN Hv HcL HcN Hj. unfold merge_ufc_data. rewrite HL.
  set (b := (if backup && negb dry then _ else _)).
  assert (living_file b.2 = Some L ∧ latest_file b.2 = Some N) as [Hb1 Hb2].
  { subst b. destruct backup, dry; simpl; try done. by destruct (backup_file fs). }
  destruct b as [note fs1]. simpl in Hb1, Hb2.
  destruct (validate_data L) as [vL mL] eqn:EL.
  destruct (validate_data N) as [vN mN] eqn:EN.
  assert (negb vL && negb force = false) as ->.
  { destruct force; [by rewrite andb_false_r|].
    destruct (Hv eq_refl) as [H1 _]. simpl in H1. by subst. }
  rewrite Hb2, EN.
  assert (negb vN && negb force = false) as ->.
  { destruct force; [by rewrite andb_false_r|].
    destruct (Hv eq_refl) as [_ H2]. simpl in H2. by subst. }
  rewrite !bool_decide_eq_true_2 by done. cbn [andb negb]. rewrite Hj.
  eexists _, _. split; [|split].
  - f_equal. f_equal. unfold purged_data. by destruct (any_purged L N).
  - destruct dry; simpl; done.
  - destruct dry; simpl; done.
Qed.

End CurrentFacts.

(** ** The earlier script: cells, updates and the sort *)

Section LegacyFacts.

Import Legacy.

Lemma lookup_set_cell c v (r : Row) c' :
  set_cell c v r !! c' = if decide (c = c') then v else r !! c'.
Proof.
  unfold set_cell. destruct v; [rewrite lookup_insert|rewrite lookup_delete];
    by case_decide.
Qed.

Lemma update_row_foldl (lc mc : list string) (r n : Row) (dc : list string) c (acc : Row) :
  foldl (λ (acc : Row) col,
           if bool_decide (col ∈ lc) && bool_decide (col ∈ mc)
              && should_update (r !! col) (n !! col)
           then set_cell col (n !! col) acc
           else acc) acc dc !! c =
  if decide (c ∈ dc ∧ c ∈ lc ∧ c ∈ mc ∧ should_update (r !! c) (n !! c) = true)
  then n !! c else acc !! c.
Proof.
  revert acc. induction dc as [|d dc IH]; intros acc; cbn [foldl].
  - case_decide as H; [|done]. destruct H as [H _]. by apply elem_of_nil in H.
  - rewrite IH. clear IH.
    set (Q x := x ∈ lc ∧ x ∈ mc ∧ should_update (r !! x) (n !! x) = true).
    assert (Hb : ∀ x, bool_decide (x ∈ lc) && bool_decide (x ∈ mc)
                       && should_update (r !! x) (n !! x) = true ↔ Q x).
    { intros x. unfold Q. rewrite !andb_true_iff, !bool_decide_eq_true. tauto. }
    destruct (bool_decide (d ∈ lc) && bool_decide (d ∈ mc)
              && should_update (r !! d) (n !! d)) eqn:E.
    + apply Hb in E. rewrite lookup_set_cell.
      destruct (decide (d = c)) as [<-|Hne].
      * rewrite (decide_True (P := d ∈ d :: dc ∧ Q d)) by (split; [left|done]).
        by case_decide.
      * apply decide_ext. rewrite elem_of_cons. intuition congruence.
    + assert (¬ Q d) as HQ by (rewrite <- Hb, E; done).
      apply decide_ext. rewrite elem_of_cons.
      split; [intros [? ?]; split; [by right|done]|intros [[->|?] ?]; [done|by split]].
Qed.

Lemma update_row_lookup (lc mc dc : list string) (r n : Row) c :
  update_row lc mc dc r n !! c =
  if decide (c ∈ dc ∧ c ∈ lc ∧ c ∈ mc ∧ should_update (r !! c) (n !! c) = true)
  then n !! c else r !! c.
Proof. apply update_row_foldl. Qed.

Lemma update_row_lookup_other (lc mc dc : list string) (r n : Row) c :
  c ∉ dc → update_row lc mc dc r n !! c = r !! c.
Proof. intros H. rewrite update_row_lookup. case_decide; [tauto|done]. Qed.

Lemma string_compare_refl (x : string) : String.compare x x = Eq.
Proof.
  pose proof (String.compare_antisym x x) as H.
  destruct (String.compare x x); done.
Qed.



Lemma cell_compare_refl d (a : cell) : cell_compare d a a = Eq.
Proof.
  destruct a as [x|]; simpl; [|done].
  destruct d; apply string_compare_refl.
Qed.






Lemma insert_row_Permutation r l : insert_row r l ≡ₚ r :: l.
Proof.
  induction l as [|r' t IH]; simpl; [done|].
  destruct (row_leb r r'); [done|]. rewrite IH. apply Permutation_swap.
Qed.

Lemma sort_rows_Permutation l : foldr insert_row [] l ≡ₚ l.
Proof.
  induction l as [|r t IH]; simpl; [done|].
  by rewrite insert_row_Permutation, IH.
Qed.




End LegacyFacts.

(** ** The earlier script: keys and the latest record of a key *)

Section LegacyMerge.

Import Legacy.

Lemma rows_assign_composite_key df :
  rows (assign_composite_key df) = keyed <$> rows df.
Proof. done. Qed.

Lemma key_of_keyed r : key_of (keyed r) = composite_key r.
Proof. unfold key_of, keyed. rewrite lookup_set_cell. by case_decide. Qed.

Lemma composite_key_ext (r r' : Row) :
  r !! "Player" = r' !! "Player" → r !! "Date" = r' !! "Date" →
  r !! "Opponent" = r' !! "Opponent" → composite_key r = composite_key r'.
Proof. unfold composite_key. by intros -> -> ->. Qed.

Lemma composite_key_keyed r : composite_key (keyed r) = composite_key r.
Proof.
  apply composite_key_ext; unfold keyed; rewrite lookup_set_cell; by case_decide.
Qed.

Lemma elem_of_keys df k :
  k ∈ keys (assign_composite_key df) ↔ k ∈ composite_key <$> rows df.
Proof.
  unfold keys. rewrite elem_of_list_to_set, rows_assign_composite_key.
  rewrite <- list_fmap_compose. rewrite !list_elem_of_fmap.
  split; intros (r & -> & Hr); exists r; (split; [|done]); simpl;
    by rewrite key_of_keyed.
Qed.







End LegacyMerge.

(** ** The earlier script: the merged frame *)

Section LegacyMergedFrame.

Import Legacy.


Lemma update_record_empty dict lc mc dc (r : Row) :
  update_record ∅ dict lc mc dc r = r.
Proof.
  unfold update_record. rewrite bool_decide_eq_false_2; [done|]. apply not_elem_of_empty.
Qed.

Lemma merged_frame_eq L N :
  merged_frame L N =
  mkDF (filter (λ c, c ≠ composite_key_column) (base_columns L N))
       (foldr insert_row []
          ((λ r, delete composite_key_column (update_of L N r)) <$> base_rows L N)).
Proof.
  unfold merged_frame, sort_values, drop_composite_key.
  case_bool_decide as Hsz; simpl.
  - by rewrite <- list_fmap_compose.
  - f_equal. f_equal. fold (base_rows L N).
    apply list_fmap_ext. intros i r _. f_equal. unfold update_of.
    assert (keys (assign_composite_key L) ∩ keys (assign_composite_key N) = ∅) as ->.
    { apply leibniz_equiv, size_empty_iff. lia. }
    by rewrite update_record_empty.
Qed.

Lemma elem_of_columns_assign df c :
  c ∈ columns (assign_composite_key df) ↔ c ∈ columns df ∨ c = composite_key_column.
Proof.
  unfold assign_composite_key; simpl. case_bool_decide as H.
  - split; [by left|]. by intros [?| ->].
  - rewrite elem_of_app, list_elem_of_singleton. tauto.
Qed.

Lemma elem_of_data_columns N c :
  c ∈ data_columns (assign_composite_key N) ↔ c ∈ columns N ∧ c ∉ key_columns.
Proof.
  unfold data_columns. rewrite list_elem_of_filter, elem_of_columns_assign.
  split; [|tauto]. intros [H1 [H2| ->]]; [done|].
  destruct H1. unfold key_columns, composite_key_column. set_solver.
Qed.




Lemma update_of_lookup_key L N (y : Row) c :
  c ∈ key_columns → update_of L N y !! c = y !! c.
Proof.
  intros Hc. unfold update_of, update_record.
  case_bool_decide; [|done]. destruct (_ !! key_of y); [|done].
  apply update_row_lookup_other. rewrite elem_of_data_columns. tauto.
Qed.


Lemma composite_key_update_of L N y :
  composite_key (update_of L N y) = composite_key y.
Proof.
  apply composite_key_ext; apply update_of_lookup_key; unfold key_columns; set_solver.
Qed.

Lemma composite_key_delete (r : Row) :
  composite_key (delete composite_key_column r) = composite_key r.
Proof. apply composite_key_ext; by rewrite lookup_delete_ne. Qed.

End LegacyMergedFrame.

Lemma combined_data_representative L N (r : Row) :
  "Name" ∈ columns L →
  r ∈ rows N ++ purged_rows L N →
  ∃ r', r' ∈ rows (Current.combined_data L N)
        ∧ ∀ c, c ∈ columns (Current.combined_data L N) → r' !! c = r !! c.
Proof.
  intros HL Hr. rewrite combined_data_eq by done. simpl.
  destruct (keep_first_representative (row_eqb (combined_columns L N))
              (row_eqb_refl _) (row_eqb_trans _) _ r Hr) as (y & Hy & E).
  exists y. split; [done|]. by apply row_eqb_spec.
Qed.

Lemma combined_data_name L N k :
  "Name" ∈ columns L → "Name" ∈ columns N →
  k ∈ names L ∨ k ∈ names N → k ∈ names (Current.combined_data L N).
Proof.
  intros HL HN Hk.
  assert (∃ r : Row, r ∈ rows N ++ purged_rows L N ∧ r !! "Name" = k) as (r & Hr & <-).
  { destruct (decide (k ∈ names N)) as [Hin|Hout].
    - apply list_elem_of_fmap in Hin as (r & -> & Hr). exists r.
      split; [|done]. apply elem_of_app. by left.
    - destruct Hk as [Hk|Hk]; [|done].
      apply list_elem_of_fmap in Hk as (r & -> & Hr). exists r.
      split; [|done]. apply elem_of_app. right. apply list_elem_of_filter.
      split; [|done]. apply elem_of_purged_fighters. split; [|done].
      by apply list_elem_of_fmap_2. }
  destruct (combined_data_representative L N r HL Hr) as (r' & Hr' & E).
  rewrite <- (E "Name") by by apply columns_combined_data.
  by apply (list_elem_of_fmap_2 (λ r : Row, r !! "Name")).
Qed.

Lemma legacy_success_inv fs backup fs' L N :
  living_file fs = Some L → latest_file fs = Some N →
  Legacy.merge_ufc_data fs backup = (Some true, fs') →
  Legacy.has_key_columns L = true ∧ Legacy.has_key_columns N = true ∧
  living_file fs' = Some (Legacy.merged_frame L N) ∧ latest_file fs' = Some N.
Proof.
  intros HL HN. unfold Legacy.merge_ufc_data. rewrite HL.
  assert (latest_file (if backup then write_backup fs L else fs) = Some N) as ->.
  { by destruct backup. }
  destruct (Legacy.has_key_columns L) eqn:E1, (Legacy.has_key_columns N) eqn:E2;
    simpl; intros ?; simplify_eq. split_and!; try done. by destruct backup.
Qed.

Lemma elem_of_merged_frame L N (y : Row) :
  y ∈ base_rows L N →
  delete Legacy.composite_key_column (update_of L N y) ∈ rows (Legacy.merged_frame L N).
Proof.
  intros Hy. rewrite merged_frame_eq. simpl. rewrite sort_rows_Permutation.
  by apply (list_elem_of_fmap_2 (λ r, delete Legacy.composite_key_column (update_of L N r))).
Qed.

Lemma merged_frame_key L N k :
  k ∈ composite_keys L ∨ k ∈ composite_keys N →
  k ∈ composite_keys (Legacy.merged_frame L N).
Proof.
  intros Hk.
  assert (∃ y, y ∈ base_rows L N ∧ Legacy.composite_key y = k) as (y & Hy & <-).
  { unfold base_rows. destruct (decide (k ∈ composite_keys L)) as [Hin|Hout].
    - apply list_elem_of_fmap in Hin as (r & -> & Hr). exists (keyed r).
      split; [|apply composite_key_keyed]. apply elem_of_app. left.
      by apply list_elem_of_fmap_2.
    - destruct Hk as [Hk|Hk]; [done|].
      apply list_elem_of_fmap in Hk as (r & -> & Hr). exists (keyed r).
      split; [|apply composite_key_keyed]. apply elem_of_app. right.
      apply list_elem_of_filter. split; [|by apply list_elem_of_fmap_2].
      rewrite key_of_keyed, elem_of_difference, !elem_of_keys.
      split; [by apply list_elem_of_fmap_2|done]. }
  apply elem_of_merged_frame in Hy.
  apply (list_elem_of_fmap_2 Legacy.composite_key) in Hy.
  by rewrite composite_key_delete, composite_key_update_of in Hy.
Qed.



(** ** Validation *)

Section ValidationFacts.

Import Current.

Lemma row_eqb_identity (r1 r2 : Row) :
  row_eqb identity_columns r1 r2 = true ↔
  r1 !! "Name" = r2 !! "Name" ∧ r1 !! "Division Title" = r2 !! "Division Title".
Proof.
  rewrite row_eqb_spec. unfold identity_columns. split.
  - intros H. split; apply H; set_solver.
  - intros [H1 H2] c Hc. apply elem_of_cons in Hc as [->|Hc]; [done|].
    apply list_elem_of_singleton in Hc as ->. done.
Qed.

Lemma existsb_duplicated cols df l1 (r1 : Row) l2 (r2 : Row) l3 :
  rows df = l1 ++ r1 :: l2 ++ r2 :: l3 →
  row_eqb cols r1 r2 = true →
  existsb id (duplicated cols df) = true.
Proof.
  intros Hrows E. apply existsb_exists. exists true. split; [|done].
  apply list_elem_of_In. unfold duplicated. apply list_elem_of_fmap.
  exists r1. split.
  - symmetry. apply bool_decide_eq_true. rewrite Hrows.
    rewrite filter_app, filter_cons_True by apply row_eqb_refl.
    rewrite filter_app, filter_cons_True by done.
    rewrite length_app. cbn [length]. rewrite length_app. cbn [length]. lia.
  - rewrite Hrows. apply elem_of_app. right. left.
Qed.

Lemma validate_data_duplicates df :
  rows df ≠ [] → "Name" ∈ columns df → "Division Title" ∈ columns df →
  existsb id (duplicated identity_columns df) = true →
  ∃ n, validate_data df = (false, DuplicatedEntries n).
Proof.
  intros Hr H1 H2 Hd. unfold validate_data.
  assert (empty df = false) as ->.
  { unfold empty. destruct (rows df); [done|].
    destruct (columns df); [by apply elem_of_nil in H1|done]. }
  unfold required_columns.
  rewrite filter_cons_False by tauto. rewrite filter_cons_False by tauto.
  rewrite filter_nil. rewrite bool_decide_eq_true_2 by done. cbn [negb].
  fold identity_columns. rewrite Hd. by eexists.
Qed.

Lemma validate_data_false_of_duplicated df :
  existsb id (duplicated identity_columns df) = true → (validate_data df).1 = false.
Proof.
  intros Hd. unfold validate_data. destruct (empty df); [done|].
  destruct (negb _); [done|]. fold identity_columns. by rewrite Hd.
Qed.

Lemma split_two {A} (l : list A) x y :
  x ∈ l → y ∈ l → x ≠ y →
  ∃ l1 l2 l3, l = l1 ++ x :: l2 ++ y :: l3 ∨ l = l1 ++ y :: l2 ++ x :: l3.
Proof.
  intros Hx Hy Hne. apply list_elem_of_split in Hx as (l1 & l2 & ->).
  apply elem_of_app in Hy as [Hy|Hy].
  - apply list_elem_of_split in Hy as (k1 & k2 & ->).
    exists k1, k2, l2. right. by rewrite <- app_assoc.
  - apply elem_of_cons in Hy as [->|Hy]; [done|].
    apply list_elem_of_split in Hy as (k1 & k2 & ->).
    exists l1, k1, k2. by left.
Qed.

Lemma validate_data_false_of_two df (r1 r2 : Row) :
  r1 ∈ rows df → r2 ∈ rows df → r1 ≠ r2 →
  r1 !! "Name" = r2 !! "Name" → r1 !! "Division Title" = r2 !! "Division Title" →
  (validate_data df).1 = false.
Proof.
  intros H1 H2 Hne En Ed. apply validate_data_false_of_duplicated.
  destruct (split_two _ _ _ H1 H2 Hne) as (l1 & l2 & l3 & [Hl|Hl]).
  - eapply existsb_duplicated; [done|]. by apply row_eqb_identity.
  - eapply existsb_duplicated; [done|]. by apply row_eqb_identity.
Qed.

Variable set_order : gset cell → list cell.

Lemma merge_invalid_living fs backup dry L :
  living_file fs = Some L → (validate_data L).1 = false →
  ∃ note fs', merge_ufc_data set_order fs backup false dry =
    (mkStats failed (len L) 0 0 0 0 (Some (Invalid (validate_data L).2)) note dry, fs')
    ∧ living_file fs' = Some L ∧ latest_file fs' = latest_file fs.
Proof.
  intros HL Hv. unfold merge_ufc_data. rewrite HL.
  set (b := if backup && negb dry then _ else _).
  assert (living_file b.2 = Some L ∧ latest_file b.2 = latest_file fs) as [Hb1 Hb2].
  { subst b. destruct backup, dry; simpl; try done. by destruct (backup_file fs). }
  destruct b as [note fs1]. simpl in *.
  destruct (validate_data L) as [v m]. simpl in Hv. subst v. simpl. eauto.
Qed.

Lemma merge_invalid_latest fs backup dry L N :
  living_file fs = Some L → latest_file fs = Some N →
  (validate_data L).1 = true → (validate_data N).1 = false →
  ∃ note fs', merge_ufc_data set_order fs backup false dry =
    (mkStats failed (len L) (len N) 0 0 0 (Some (Invalid (validate_data N).2)) note dry, fs')
    ∧ living_file fs' = Some L ∧ latest_file fs' = latest_file fs.
Proof.
  intros HL HN HvL HvN. unfold merge_ufc_data. rewrite HL.
  set (b := if backup && negb dry then _ else _).
  assert (living_file b.2 = Some L ∧ latest_file b.2 = latest_file fs) as [Hb1 Hb2].
  { subst b. destruct backup, dry; simpl; try done. by destruct (backup_file fs). }
  destruct b as [note fs1]. simpl in *.
  destruct (validate_data L) as [v m]. simpl in HvL. subst v. simpl.
  rewrite Hb2, HN.
  destruct (validate_data N) as [v' m']. simpl in HvN. subst v'. simpl.
  rewrite <- HN, <- Hb2. eauto.
Qed.

Lemma merge_force_not_invalid fs backup dry m :
  error (merge_ufc_data set_order fs backup true dry).1 ≠ Some (Invalid m).
Proof.
  unfold merge_ufc_data. destruct (living_file fs) as [L|].
  - destruct (if backup && negb dry then _ else _) as [note fs1].
    destruct (validate_data L) as [vL mL]. rewrite andb_false_r.
    destruct (latest_file fs1) as [N|]; [|done].
    destruct (validate_data N) as [vN mN]. rewrite andb_false_r.
    destruct (negb _); [done|]. destruct (_ && negb _); done.
  - destruct (latest_file fs); done.
Qed.

End ValidationFacts.





Lemma filter_comm {A} (p q : A → Prop) `{!∀ x, Decision (p x), !∀ x, Decision (q x)}
    (l : list A) :
  filter p (filter q l) = filter q (filter p l).
Proof. rewrite !list_filter_filter. apply list_filter_iff. tauto. Qed.

Lemma filter_all {A} (p : A → Prop) `{!∀ x, Decision (p x)} (l : list A) :
  (∀ x, x ∈ l → p x) → filter p l = l.
Proof.
  induction l as [|x t IH]; intros Hall; [done|].
  rewrite filter_cons_True by (apply Hall; left). f_equal. apply IH.
  intros y Hy. apply Hall. by right.
Qed.

Lemma filter_none {A} (p : A → Prop) `{!∀ x, Decision (p x)} (l : list A) :
  (∀ x, x ∈ l → ¬ p x) → filter p l = [].
Proof.
  induction l as [|x t IH]; intros Hall; [done|].
  rewrite filter_cons_False by (apply Hall; left). apply IH.
  intros y Hy. apply Hall. by right.
Qed.

Lemma keep_first_filter_length {A} (eqb : A → A → bool) (p : A → Prop)
    `{!∀ x, Decision (p x)} (l : list A) :
  (length (filter p (keep_first eqb l)) ≤ length (filter p l))%nat.
Proof.
  induction l as [|x t IH]; simpl; [done|].
  assert (length (filter p (filter (λ y, eqb x y = false) (keep_first eqb t)))
          ≤ length (filter p t))%nat as Hle.
  { rewrite filter_comm. etrans; [apply length_filter|exact IH]. }
  destruct (decide (p x)).
  - rewrite !filter_cons_True by done. simpl. lia.
  - rewrite !filter_cons_False by done. lia.
Qed.

Lemma keep_first_nil {A} (eqb : A → A → bool) (l : list A) :
  keep_first eqb l = [] ↔ l = [].
Proof. by destruct l. Qed.

Lemma existsb_id_fmap_false {A} (f : A → bool) (l : list A) :
  existsb id (f <$> l) = false ↔ ∀ x, x ∈ l → f x = false.
Proof.
  induction l as [|x t IH]; simpl.
  - split; [|done]. intros _ x Hx. by apply elem_of_nil in Hx.
  - rewrite orb_false_iff, IH. unfold id. split.
    + intros [H1 H2] y [->|Hy]%elem_of_cons; auto.
    + intros H. split; [apply H; left|]. intros y Hy. apply H. by right.
Qed.

(** ** The current script: the result of a merge merged again *)

Section CurrentValidity.

Import Current.

Lemma validate_data_true df :
  (validate_data df).1 = true ↔
  empty df = false ∧ "Name" ∈ columns df ∧ "Division Title" ∈ columns df
  ∧ no_duplicates df.
Proof.
  unfold validate_data, required_columns.
  destruct (empty df); [split; [done|by intros [? _]]|].
  destruct (decide ("Name" ∈ columns df)) as [H1|H1].
  2:{ rewrite filter_cons_True by done. simpl. split; [done|by intros (_ & ? & _)]. }
  rewrite filter_cons_False by tauto.
  destruct (decide ("Division Title" ∈ columns df)) as [H2|H2].
  2:{ rewrite filter_cons_True by done. simpl. split; [done|by intros (_ & _ & ? & _)]. }
  rewrite filter_cons_False by tauto. rewrite filter_nil.
  rewrite bool_decide_eq_true_2 by done. cbn [negb]. fold identity_columns.
  destruct (existsb id (duplicated identity_columns df)) eqn:E; simpl.
  - split; [done|]. intros (_ & _ & _ & Hnd).
    assert (existsb id (duplicated identity_columns df) = false); [|congruence].
    apply existsb_id_fmap_false. intros r Hr. apply bool_decide_eq_false.
    specialize (Hnd r Hr). lia.
  - split; [|done]. intros _. split_and!; try done.
    intros r Hr. unfold duplicated in E.
    rewrite existsb_id_fmap_false in E. specialize (E r Hr).
    apply bool_decide_eq_false in E. lia.
Qed.



Lemma name_in_combined_columns L N : "Name" ∈ columns N → "Name" ∈ combined_columns L N.
Proof.
  intros H. unfold combined_columns. destruct (purged_rows L N); [done|].
  apply elem_of_app. by left.
Qed.




End CurrentValidity.

(** ** The current script: a second run *)

Section CurrentIdempotence.

Import Current.

Lemma combined_data_valid L N :
  (validate_data L).1 = true → (validate_data N).1 = true →
  (validate_data (combined_data L N)).1 = true.
Proof.
  rewrite !validate_data_true.
  intros (HeL & HnL & HdL & HndL) (HeN & HnN & HdN & HndN).
  assert (rows N ≠ []) as HrN.
  { intros E. unfold empty in HeN. by rewrite E in HeN. }
  assert (∀ r r' : Row, row_eqb identity_columns r r' = true →
            r !! "Name" = r' !! "Name") as Hname.
  { intros r r' E. apply row_eqb_identity in E. tauto. }
  assert (∀ r : Row, r ∈ purged_rows L N → r ∈ rows L ∧ r !! "Name" ∉ names N) as HP.
  { intros r Hr. apply list_elem_of_filter in Hr as [Hp Hr].
    apply elem_of_purged_fighters in Hp. tauto. }
  split_and!.
  - rewrite combined_data_eq by done. unfold empty. simpl.
    destruct (keep_first _ _) eqn:E.
    { apply keep_first_nil in E. by destruct (rows N). }
    pose proof (name_in_combined_columns L N HnN) as Hc.
    destruct (combined_columns L N); [by apply elem_of_nil in Hc|done].
  - by apply columns_combined_data.
  - by apply columns_combined_data.
  - intros r Hr. rewrite combined_data_eq in Hr |- * by done. cbn [rows] in *.
    etrans; [apply keep_first_filter_length|].
    apply keep_first_subseteq in Hr. rewrite filter_app, length_app.
    apply elem_of_app in Hr as [Hr|Hr].
    + rewrite (filter_none _ (purged_rows L N)).
      { specialize (HndN r Hr). cbn [length]. lia. }
      intros r' Hr' E. apply HP in Hr' as [_ Hr']. apply Hr'.
      rewrite <- (Hname _ _ E). by apply (list_elem_of_fmap_2 (λ r : Row, r !! "Name")).
    + destruct (HP r Hr) as [HrL Hout].
      rewrite (filter_none _ (rows N)).
      { cbn [length Nat.add]. etrans; [|apply (HndL r HrL)]. unfold purged_rows.
        rewrite filter_comm. apply length_filter. }
      intros r' Hr' E. apply Hout. rewrite (Hname _ _ E).
      by apply (list_elem_of_fmap_2 (λ r : Row, r !! "Name")).
Qed.

Variable set_order : gset cell → list cell.


End CurrentIdempotence.

(** ** The earlier script: a second run *)

Section LegacyIdempotence.

Import Legacy.














End LegacyIdempotence.


(** * The claims *)

(** C1. Union preservation: whenever the merge succeeds and writes the
    living file, every identity key of the previous living file and every
    identity key of the latest file occurs in the new living file.  The
    identity key is the one the script matches on: the [Name] of the
    current script, the composite key [Player|Date|Opponent] of the
    earlier one.  A missing living file contributes no key. *)
Theorem union_preservation :
  (∀ set_order fs backup force st fs' N k,
     latest_file fs = Some N →
     Current.merge_ufc_data set_order fs backup force false = (st, fs') →
     Current.status st = Current.success →
     k ∈ from_option names [] (living_file fs) ∨ k ∈ names N →
     ∃ M, living_file fs' = Some M ∧ k ∈ names M)
  ∧
  (∀ fs backup fs' N k,
     latest_file fs = Some N →
     Legacy.merge_ufc_data fs backup = (Some true, fs') →
     k ∈ from_option composite_keys [] (living_file fs) ∨ k ∈ composite_keys N →
     ∃ M, living_file fs' = Some M ∧ k ∈ composite_keys M).
Proof.
  split.
  - intros set_order fs backup force st fs' N k HN Hrun Hst Hk.
    destruct (living_file fs) as [L|] eqn:HL.
    + destruct (merge_success_inv set_order fs backup force false st fs' L HL Hrun Hst)
        as (N' & HN' & HcL & HcN & _ & Hliv & _).
      simplify_eq. eexists. split; [done|]. by apply combined_data_name.
    + rewrite (merge_first_run set_order fs backup force false N HL HN) in Hrun.
      simplify_eq. exists N. split; [done|]. simpl in Hk. destruct Hk as [Hk|Hk]; [|done].
      by apply elem_of_nil in Hk.
  - intros fs backup fs' N k HN Hrun Hk.
    destruct (living_file fs) as [L|] eqn:HL.
    + destruct (legacy_success_inv fs backup fs' L N HL HN Hrun) as (_ & _ & Hliv & _).
      eexists. split; [done|]. by apply merged_frame_key.
    + unfold Legacy.merge_ufc_data in Hrun. rewrite HL, HN in Hrun. simplify_eq.
      exists N. split; [done|]. simpl in Hk. destruct Hk as [Hk|Hk]; [|done].
      by apply elem_of_nil in Hk.
Qed.

Lemma union_preservation_witness :
  (∃ M, living_file (Current.merge_ufc_data elements fs_a true false false).2 = Some M
        ∧ Some "C" ∈ names M)
  ∧ (∃ M, living_file (Legacy.merge_ufc_data lfs_a true).2 = Some M
          ∧ Some "C|2019-05-05|Y" ∈ composite_keys M).
Proof.
  split.
  - apply (proj1 union_preservation elements fs_a true false
             (Current.merge_ufc_data elements fs_a true false false).1 _
             latest_a (Some "C")).
    + reflexivity.
    + apply surjective_pairing.
    + vm_compute. reflexivity.
    + left. by_computation.
  - apply (proj2 union_preservation lfs_a true _ bouts_latest (Some "C|2019-05-05|Y")).
    + reflexivity.
    + vm_compute. reflexivity.
    + left. by_computation.
Defined.

(** The pair ([Name], [Division Title]) that [validate_data] treats as
    the identity of a row is not what the current merge preserves: a
    fighter found in the latest file under another division loses the
    living row. *)
Example current_identity_pair_not_preserved :
  Current.status (Current.merge_ufc_data elements fs_division true false false).1
    = Current.success
  ∧ stored_column "Division Title" (living_file fs_division) = [Some "LW"]
  ∧ stored_column "Division Title"
      (living_file (Current.merge_ufc_data elements fs_division true false false).2)
    = [Some "WW"].
Proof. vm_compute. done. Qed.









(** C5, as first stated, fails: with two rows for (A, LW) in the latest
    file and [force] off, the merge stops with status failed, the
    validation message as its error, and the living file as it was. *)
Lemma duplicate_key_aborts_without_force :
  Current.validate_data latest_dup = (false, Current.DuplicatedEntries 1)
  ∧ Current.status (Current.merge_ufc_data elements fs_dup true false false).1
    = Current.failed
  ∧ Current.error (Current.merge_ufc_data elements fs_dup true false false).1
    = Some (Current.Invalid (Current.DuplicatedEntries 1))
  ∧ living_file (Current.merge_ufc_data elements fs_dup true false false).2
    = living_file fs_dup.
Proof. vm_compute. done. Qed.

(** C5, as the code has it.  A frame with the required columns in which
    two rows share [Name] and [Division Title] fails validation with the
    message labelled as a warning.  When the living file exists and that
    frame is the living or the latest file, a merge without [force]
    ends with status failed, a validation message as its error, no
    record counted in the total, and the living file untouched; with
    [force] no merge ends on a validation message. *)
Theorem duplicate_key_validation :
  ∀ df l1 (r1 : Row) l2 (r2 : Row) l3,
    rows df = l1 ++ r1 :: l2 ++ r2 :: l3 →
    "Name" ∈ columns df → "Division Title" ∈ columns df →
    r1 !! "Name" = r2 !! "Name" →
    r1 !! "Division Title" = r2 !! "Division Title" →
    ∃ n, Current.validate_data df = (false, Current.DuplicatedEntries n)
      ∧ Current.is_warning (Current.DuplicatedEntries n) = true
      ∧ (∀ set_order fs backup dry st fs',
           is_Some (living_file fs) →
           living_file fs = Some df ∨ latest_file fs = Some df →
           Current.merge_ufc_data set_order fs backup false dry = (st, fs') →
           Current.status st = Current.failed
           ∧ (∃ m, Current.error st = Some (Current.Invalid m))
           ∧ Current.total_records st = 0
           ∧ living_file fs' = living_file fs)
      ∧ (∀ set_order fs backup dry m,
           Current.error (Current.merge_ufc_data set_order fs backup true dry).1
           ≠ Some (Current.Invalid m)).
Proof.
  intros df l1 r1 l2 r2 l3 Hrows Hn Hd En Ed.
  assert (existsb id (duplicated identity_columns df) = true) as Hdup.
  { eapply existsb_duplicated; [done|]. by apply row_eqb_identity. }
  destruct (validate_data_duplicates df) as [n Hv]; try done.
  { rewrite Hrows. by destruct l1. }
  exists n. split_and!; try done.
  - intros set_order fs backup dry st fs' [L HL] Hdf Hrun.
    destruct ((Current.validate_data L).1) eqn:HvL.
    + destruct Hdf as [Hdf|Hdf].
      { rewrite HL in Hdf. simplify_eq. rewrite Hv in HvL. done. }
      destruct (merge_invalid_latest set_order fs backup dry L df HL Hdf HvL)
        as (note & fs1 & E & H1 & H2); [by rewrite Hv|].
      rewrite E in Hrun. simplify_eq. simpl. split_and!; eauto. congruence.
    + destruct (merge_invalid_living set_order fs backup dry L HL HvL)
        as (note & fs1 & E & H1 & H2).
      rewrite E in Hrun. simplify_eq. simpl. split_and!; eauto. congruence.
  - intros. apply merge_force_not_invalid.
Qed.

Lemma duplicate_key_validation_witness :
  ∃ n, Current.validate_data latest_dup = (false, Current.DuplicatedEntries n)
    ∧ Current.is_warning (Current.DuplicatedEntries n) = true
    ∧ (∀ set_order fs backup dry st fs',
         is_Some (living_file fs) →
         living_file fs = Some latest_dup ∨ latest_file fs = Some latest_dup →
         Current.merge_ufc_data set_order fs backup false dry = (st, fs') →
         Current.status st = Current.failed
         ∧ (∃ m, Current.error st = Some (Current.Invalid m))
         ∧ Current.total_records st = 0
         ∧ living_file fs' = living_file fs)
    ∧ (∀ set_order fs backup dry m,
         Current.error (Current.merge_ufc_data set_order fs backup true dry).1
         ≠ Some (Current.Invalid m)).
Proof.
  apply (duplicate_key_validation latest_dup []
           (fighter "A" "LW" "5") [] (fighter "A" "LW" "6") []).
  - reflexivity.
  - by_computation.
  - by_computation.
  - vm_compute. reflexivity.
  - vm_compute. reflexivity.
Defined.

(** C6. First run: with no living file and a latest file, the merge
    succeeds, reports [new_unique_records] = [new_records] =
    [total_records] = the number of latest rows and nothing preserved,
    and, unless it is a dry run, the living file is the latest file as it
    is.  The earlier script copies the file and returns True. *)
Theorem first_run :
  (∀ set_order fs backup force dry N st fs',
     living_file fs = None → latest_file fs = Some N →
     Current.merge_ufc_data set_order fs backup force dry = (st, fs') →
     Current.status st = Current.success
     ∧ Current.new_unique_records st = len N
     ∧ Current.preserved_records st = 0
     ∧ Current.new_records st = len N
     ∧ Current.total_records st = len N
     ∧ Current.previous_records st = 0
     ∧ (dry = false → living_file fs' = Some N ∧ latest_file fs' = Some N))
  ∧
  (∀ fs backup N fs' res,
     living_file fs = None → latest_file fs = Some N →
     Legacy.merge_ufc_data fs backup = (res, fs') →
     res = Some true ∧ living_file fs' = Some N ∧ latest_file fs' = Some N).
Proof.
  split.
  - intros set_order fs backup force dry N st fs' HL HN Hrun.
    rewrite (merge_first_run set_order fs backup force dry N HL HN) in Hrun.
    simplify_eq. simpl. split_and!; try done. by intros ->.
  - intros fs backup N fs' res HL HN Hrun. unfold Legacy.merge_ufc_data in Hrun.
    rewrite HL, HN in Hrun. by simplify_eq.
Qed.

Lemma first_run_witness :
  (Current.status (Current.merge_ufc_data elements fs_first true false false).1
     = Current.success
   ∧ Current.new_unique_records (Current.merge_ufc_data elements fs_first true false false).1
     = len latest_a
   ∧ Current.preserved_records (Current.merge_ufc_data elements fs_first true false false).1
     = 0
   ∧ Current.new_records (Current.merge_ufc_data elements fs_first true false false).1
     = len latest_a
   ∧ Current.total_records (Current.merge_ufc_data elements fs_first true false false).1
     = len latest_a
   ∧ Current.previous_records (Current.merge_ufc_data elements fs_first true false false).1
     = 0
   ∧ (false = false →
      living_file (Current.merge_ufc_data elements fs_first true false false).2
        = Some latest_a
      ∧ latest_file (Current.merge_ufc_data elements fs_first true false false).2
        = Some latest_a))
  ∧ ((Legacy.merge_ufc_data fs_first true).1 = Some true
     ∧ living_file (Legacy.merge_ufc_data fs_first true).2 = Some latest_a
     ∧ latest_file (Legacy.merge_ufc_data fs_first true).2 = Some latest_a).
Proof.
  split.
  - apply (proj1 first_run elements fs_first true false false latest_a).
    + reflexivity.
    + reflexivity.
    + apply surjective_pairing.
  - apply (proj2 first_run fs_first true latest_a).
    + reflexivity.
    + reflexivity.
    + apply surjective_pairing.
Defined.




(** C8. Dry-run purity: a dry run leaves the three files as they were
    and returns the status, the error and the five counts a real run
    from the same files returns. *)
Theorem dry_run_purity set_order fs backup force :
  (Current.merge_ufc_data set_order fs backup force true).2 = fs
  ∧ Current.status (Current.merge_ufc_data set_order fs backup force true).1
    = Current.status (Current.merge_ufc_data set_order fs backup force false).1
  ∧ Current.previous_records (Current.merge_ufc_data set_order fs backup force true).1
    = Current.previous_records (Current.merge_ufc_data set_order fs backup force false).1
  ∧ Current.new_records (Current.merge_ufc_data set_order fs backup force true).1
    = Current.new_records (Current.merge_ufc_data set_order fs backup force false).1
  ∧ Current.total_records (Current.merge_ufc_data set_order fs backup force true).1
    = Current.total_records (Current.merge_ufc_data set_order fs backup force false).1
  ∧ Current.new_unique_records (Current.merge_ufc_data set_order fs backup force true).1
    = Current.new_unique_records (Current.merge_ufc_data set_order fs backup force false).1
  ∧ Current.preserved_records (Current.merge_ufc_data set_order fs backup force true).1
    = Current.preserved_records (Current.merge_ufc_data set_order fs backup force false).1
  ∧ Current.error (Current.merge_ufc_data set_order fs backup force true).1
    = Current.error (Current.merge_ufc_data set_order fs backup force false).1.
Proof.
  unfold Current.merge_ufc_data.
  destruct (living_file fs) as [L|] eqn:HL.
  - rewrite !andb_false_r, !andb_true_r. cbn [negb].
    set (b1 := if backup then (Current.WouldCreate, fs) else (Current.NoBackup, fs)).
    set (b2 := if backup then _ else (Current.NoBackup, fs)).
    assert (b1.2 = fs) as H1 by (subst b1; by destruct backup).
    assert (latest_file b2.2 = latest_file fs) as H2.
    { subst b2. destruct backup; [|done]. by destruct (backup_file fs). }
    destruct b1 as [n1 f1], b2 as [n2 f2]. simpl in H1, H2. subst f1. rewrite H2.
    destruct (Current.validate_data L) as [vL mL].
    destruct (negb vL && negb force); [done|].
    destruct (latest_file fs) as [N|]; [|done].
    destruct (Current.validate_data N) as [vN mN].
    destruct (negb vN && negb force); [done|].
    destruct (negb _); [done|].
    destruct (_ && negb _); done.
  - destruct (latest_file fs); done.
Qed.

(** C9. The last step drops a row only when an earlier row equals it in
    every column: every row of a frame is still there, up to equality on
    all columns, after [drop_duplicates].  So when a merge succeeds and
    two rows of the latest file share [Name] and [Division Title] but
    differ in some column, the living file it writes holds two rows with
    that shared identity that differ in that column, and it does not pass
    [validate_data]. *)
Theorem duplicate_identity_survives :
  (∀ df (r : Row), r ∈ rows df →
     ∃ r', r' ∈ rows (drop_duplicates df) ∧ ∀ c, c ∈ columns df → r' !! c = r !! c)
  ∧
  (∀ set_order fs backup force st fs' L N (r1 r2 : Row) c,
     living_file fs = Some L → latest_file fs = Some N →
     Current.merge_ufc_data set_order fs backup force false = (st, fs') →
     Current.status st = Current.success →
     "Division Title" ∈ columns N →
     r1 ∈ rows N → r2 ∈ rows N →
     r1 !! "Name" = r2 !! "Name" →
     r1 !! "Division Title" = r2 !! "Division Title" →
     c ∈ columns N → r1 !! c ≠ r2 !! c →
     ∃ M (r1' r2' : Row),
       living_file fs' = Some M ∧ r1' ∈ rows M ∧ r2' ∈ rows M
       ∧ r1' !! "Name" = r2' !! "Name"
       ∧ r1' !! "Division Title" = r2' !! "Division Title"
       ∧ r1' !! c ≠ r2' !! c
       ∧ (Current.validate_data M).1 = false).
Proof.
  split; [apply drop_duplicates_representative|].
  intros set_order fs backup force st fs' L N r1 r2 c HL HN Hrun Hst Hdt H1 H2 En Ed Hc Hne.
  destruct (merge_success_inv set_order fs backup force false st fs' L HL Hrun Hst)
    as (N' & HN' & HcL & HcN & _ & Hliv & _).
  simplify_eq.
  destruct (combined_data_representative L N r1 HcL) as (r1' & Hr1 & E1).
  { apply elem_of_app. by left. }
  destruct (combined_data_representative L N r2 HcL) as (r2' & Hr2 & E2).
  { apply elem_of_app. by left. }
  assert (∀ x, x ∈ columns N → r1' !! x = r1 !! x ∧ r2' !! x = r2 !! x) as E.
  { intros x Hx. split; [apply E1|apply E2]; by apply columns_combined_data. }
  destruct (E "Name" HcN) as [A1 A2]. destruct (E "Division Title" Hdt) as [B1 B2].
  destruct (E c Hc) as [C1 C2].
  exists (Current.combined_data L N), r1', r2'.
  assert (r1' !! c ≠ r2' !! c) as Hne' by congruence.
  split_and!; try done; try congruence.
  apply (validate_data_false_of_two _ r1' r2'); try done; congruence.
Qed.

Lemma duplicate_identity_survives_witness :
  (∃ r', r' ∈ rows (drop_duplicates latest_dup)
         ∧ ∀ c, c ∈ columns latest_dup → r' !! c = fighter "A" "LW" "6" !! c)
  ∧ (∃ M (r1' r2' : Row),
       living_file (Current.merge_ufc_data elements fs_dup true true false).2 = Some M
       ∧ r1' ∈ rows M ∧ r2' ∈ rows M
       ∧ r1' !! "Name" = r2' !! "Name"
       ∧ r1' !! "Division Title" = r2' !! "Division Title"
       ∧ r1' !! "wins" ≠ r2' !! "wins"
       ∧ (Current.validate_data M).1 = false).
Proof.
  split.
  - apply (proj1 duplicate_identity_survives latest_dup (fighter "A" "LW" "6")).
    by_computation.
  - apply (proj2 duplicate_identity_survives elements fs_dup true true
             (Current.merge_ufc_data elements fs_dup true true false).1 _
             (mkDF fighter_columns [fighter "C" "LW" "2"]) latest_dup
             (fighter "A" "LW" "5") (fighter "A" "LW" "6") "wins").
    + reflexivity.
    + reflexivity.
    + apply surjective_pairing.
    + vm_compute. reflexivity.
    + by_computation.
    + by_computation.
    + by_computation.
    + vm_compute. reflexivity.
    + vm_compute. reflexivity.
    + by_computation.
    + vm_compute. discriminate.
Defined.

(** C10. When the living file exists and the merge succeeds,
    [new_unique_records] is max(0, total_records - previous_records): it
    is never negative and is 0 when the merged file has fewer rows than
    the living file had.  It is not the number of fighters found only in
    the latest file: on [fs_two] that number is 1 (B) and the count
    reported is 0. *)
Theorem new_unique_records_clamped :
  (∀ set_order fs backup force dry st fs' L,
     living_file fs = Some L →
     Current.merge_ufc_data set_order fs backup force dry = (st, fs') →
     Current.status st = Current.success →
     Current.new_unique_records st
       = Z.max 0 (Current.total_records st - Current.previous_records st)
     ∧ 0 ≤ Current.new_unique_records st
     ∧ (Current.total_records st < Current.previous_records st →
        Current.new_unique_records st = 0))
  ∧
  (∃ fs L N,
     living_file fs = Some L ∧ latest_file fs = Some N
     ∧ Current.status (Current.merge_ufc_data elements fs true false false).1
       = Current.success
     ∧ Current.new_unique_records (Current.merge_ufc_data elements fs true false false).1
       = 0
     ∧ size (Current.fighters N ∖ Current.fighters L) = 1%nat).
Proof.
  split.
  - intros set_order fs backup force dry st fs' L HL Hrun Hst.
    destruct (merge_success_inv set_order fs backup force dry st fs' L HL Hrun Hst)
      as (N & _ & _ & _ & _ & _ & _ & Hp & _ & Ht & Hu & _).
    rewrite Hu, Ht, Hp. lia.
  - exists fs_two, (mkDF fighter_columns [fighter "A" "LW" "5"; fighter "A" "WW" "3"]),
      latest_a.
    vm_compute. done.
Qed.

Lemma new_unique_records_clamped_witness :
  Current.new_unique_records first_run_a.1
    = Z.max 0 (Current.total_records first_run_a.1
               - Current.previous_records first_run_a.1)
  ∧ 0 ≤ Current.new_unique_records first_run_a.1
  ∧ (Current.total_records first_run_a.1 < Current.previous_records first_run_a.1 →
     Current.new_unique_records first_run_a.1 = 0).
Proof.
  apply (proj1 new_unique_records_clamped elements fs_a true false false
           first_run_a.1 first_run_a.2 living_a).
  - reflexivity.
  - apply surjective_pairing.
  - vm_compute. reflexivity.
Defined.

(** * Further properties *)

(** ** The current script: backups and early exits *)

Section CurrentFrame.
Import Current.
Variable set_order : gset cell → list cell.

(** The backup step of lines 112-126, as [merge_ufc_data] has it. *)
Lemma merge_frame fs backup force dry :
  latest_file (merge_ufc_data set_order fs backup force dry).2 = latest_file fs
  ∧ (status (merge_ufc_data set_order fs backup force dry).1 ≠ success ∨ dry = true →
     living_file (merge_ufc_data set_order fs backup force dry).2 = living_file fs).
Proof.
  unfold merge_ufc_data.
  destruct (living_file fs) as [L|] eqn:HL.
  - set (b := if backup && negb dry then _ else _).
    assert (living_file b.2 = Some L ∧ latest_file b.2 = latest_file fs) as [Hb1 Hb2].
    { subst b. destruct backup, dry; simpl; try done. by destruct (backup_file fs). }
    destruct b as [note fs1]. simpl in Hb1, Hb2.
    destruct (validate_data L) as [vL mL].
    destruct (negb vL && negb force); [simpl; by rewrite Hb1, Hb2|].
    rewrite Hb2. destruct (latest_file fs) as [N|] eqn:HN; [|simpl; by rewrite Hb1, Hb2].
    destruct (validate_data N) as [vN mN].
    destruct (negb vN && negb force); [simpl; by rewrite Hb1, Hb2|].
    destruct (negb _); [simpl; by rewrite Hb1, Hb2|].
    destruct (_ && negb _); [simpl; by rewrite Hb1, Hb2|].
    destruct dry; simpl; rewrite ?Hb1, ?Hb2; split; try done.
    intros [H|H]; done.
  - destruct (latest_file fs) as [N|] eqn:HN; simpl; [|by rewrite HL, HN].
    destruct dry; simpl; rewrite ?HN, ?HL; split; try done.
    intros [H|H]; done.
Qed.

Lemma merge_backup_step fs backup force dry L :
  living_file fs = Some L →
  backup_created (merge_ufc_data set_order fs backup force dry).1
  = (if backup && negb dry then
       match backup_file fs with None => BackupCreated | Some _ => NoBackup end
     else if backup && dry then WouldCreate else NoBackup)
  ∧ backup_file (merge_ufc_data set_order fs backup force dry).2
    = (if backup && negb dry then
         match backup_file fs with None => Some L | Some B => Some B end
       else backup_file fs).
Proof.
  intros HL. unfold merge_ufc_data. rewrite HL.
  destruct backup, dry, (backup_file fs) as [B|] eqn:HB; cbn [andb negb];
    destruct (validate_data L) as [vL mL];
    (destruct (negb vL && negb force); [by rewrite ?HB|]);
    cbn [latest_file write_backup];
    (destruct (latest_file fs) as [N|]; [|by rewrite ?HB]);
    destruct (validate_data N) as [vN mN];
    (destruct (negb vN && negb force); [by rewrite ?HB|]);
    (destruct (negb _); [by rewrite ?HB|]);
    (destruct (_ && negb _); [by rewrite ?HB|]);
    by rewrite ?HB.
Qed.

(** X1. The backup of the day (lines 112-126 of the current script).  A
    backup that exists is never overwritten.  Without [backup], in a dry
    run, or on a first run, the backup slot is left as it was.  A real
    run with [backup] over an existing living file and no backup yet
    stores the living file as it was before the merge, and reports it;
    and the report says that a backup was created only in that case. *)
Theorem merge_backup fs backup force dry :
  (∀ B, backup_file fs = Some B →
        backup_file (merge_ufc_data set_order fs backup force dry).2 = Some B)
  ∧ (backup = false ∨ dry = true ∨ living_file fs = None →
     backup_file (merge_ufc_data set_order fs backup force dry).2 = backup_file fs)
  ∧ (is_Some (living_file fs) → backup = true → dry = false → backup_file fs = None →
     backup_file (merge_ufc_data set_order fs backup force dry).2 = living_file fs
     ∧ backup_created (merge_ufc_data set_order fs backup force dry).1 = BackupCreated)
  ∧ (backup_created (merge_ufc_data set_order fs backup force dry).1 = BackupCreated →
     backup_file fs = None
     ∧ backup_file (merge_ufc_data set_order fs backup force dry).2 = living_file fs).
Proof.
  destruct (living_file fs) as [L|] eqn:HL.
  - destruct (merge_backup_step fs backup force dry L HL) as [Hn Hb].
    rewrite Hn, Hb. split_and!.
    + intros B HB. rewrite HB. by destruct (backup && negb dry).
    + intros [->|[->|?]]; [done| |done]. by rewrite andb_false_r.
    + intros _ -> -> ->. done.
    + destruct backup, dry, (backup_file fs); simpl; try done.
  - assert (backup_file (merge_ufc_data set_order fs backup force dry).2 = backup_file fs
            ∧ backup_created (merge_ufc_data set_order fs backup force dry).1 = NoBackup)
      as [Hb Hn].
    { unfold merge_ufc_data. rewrite HL. destruct (latest_file fs); [|done].
      by destruct dry. }
    rewrite Hb, Hn. split_and!; try done.
Qed.

(** X2. No latest file.  Without a living file either, the merge fails
    with "Latest file not found" and touches nothing.  With a living
    file, the living data is validated first: if it is invalid and
    [force] is off the merge fails on the validation message, otherwise
    it ends as skipped with "Latest file not found"; either way the
    previous count is reported, nothing is counted in the total, and the
    living file stays. *)
Theorem merge_without_latest fs backup force dry :
  latest_file fs = None →
  (living_file fs = None →
   merge_ufc_data set_order fs backup force dry
   = (mkStats failed 0 0 0 0 0 (Some LatestNotFound) NoBackup dry, fs))
  ∧ (∀ L, living_file fs = Some L →
       status (merge_ufc_data set_order fs backup force dry).1
       = (if negb (validate_data L).1 && negb force then failed else skipped)
       ∧ error (merge_ufc_data set_order fs backup force dry).1
         = Some (if negb (validate_data L).1 && negb force
                 then Invalid (validate_data L).2 else LatestNotFound)
       ∧ previous_records (merge_ufc_data set_order fs backup force dry).1 = len L
       ∧ total_records (merge_ufc_data set_order fs backup force dry).1 = 0
       ∧ living_file (merge_ufc_data set_order fs backup force dry).2 = Some L).
Proof.
  intros HN. split.
  - intros HL. unfold merge_ufc_data. by rewrite HL, HN.
  - intros L HL. unfold merge_ufc_data. rewrite HL.
    set (b := if backup && negb dry then _ else _).
    assert (living_file b.2 = Some L ∧ latest_file b.2 = None) as [Hb1 Hb2].
    { subst b. destruct backup, dry; simpl; try done. by destruct (backup_file fs). }
    destruct b as [note fs1]. simpl in Hb1, Hb2.
    destruct (validate_data L) as [vL mL]. simpl.
    destruct (negb vL && negb force); [done|]. by rewrite Hb2.
Qed.

(** X3. Under [force] a living or latest file without the [Name] column
    gets past the validation gate and then fails on the KeyError of
    [living_data['Name']]: status failed, the two record counts already
    taken, the living file untouched. *)
Theorem merge_force_missing_name fs backup dry L N :
  living_file fs = Some L → latest_file fs = Some N →
  "Name" ∉ columns L ∨ "Name" ∉ columns N →
  status (merge_ufc_data set_order fs backup true dry).1 = failed
  ∧ error (merge_ufc_data set_order fs backup true dry).1 = Some (KeyError "Name")
  ∧ previous_records (merge_ufc_data set_order fs backup true dry).1 = len L
  ∧ new_records (merge_ufc_data set_order fs backup true dry).1 = len N
  ∧ living_file (merge_ufc_data set_order fs backup true dry).2 = Some L.
Proof.
  intros HL HN Hc. unfold merge_ufc_data. rewrite HL.
  set (b := if backup && negb dry then _ else _).
  assert (living_file b.2 = Some L ∧ latest_file b.2 = Some N) as [Hb1 Hb2].
  { subst b. destruct backup, dry; simpl; try done. by destruct (backup_file fs). }
  destruct b as [note fs1]. simpl in Hb1, Hb2.
  destruct (validate_data L) as [vL mL]. rewrite andb_false_r, Hb2.
  destruct (validate_data N) as [vN mN]. rewrite andb_false_r.
  assert (bool_decide ("Name" ∈ columns L) && bool_decide ("Name" ∈ columns N) = false)
    as ->; [|done].
  apply andb_false_iff. rewrite !bool_decide_eq_false. tauto.
Qed.

End CurrentFrame.

Lemma merge_without_latest_witness :
  (living_file fs_no_latest = None →
   Current.merge_ufc_data elements fs_no_latest true false false
   = (Current.mkStats Current.failed 0 0 0 0 0 (Some Current.LatestNotFound)
        Current.NoBackup false, fs_no_latest))
  ∧ (∀ L, living_file fs_no_latest = Some L →
       Current.status (Current.merge_ufc_data elements fs_no_latest true false false).1
       = (if negb (Current.validate_data L).1 && negb false
          then Current.failed else Current.skipped)
       ∧ Current.error (Current.merge_ufc_data elements fs_no_latest true false false).1
         = Some (if negb (Current.validate_data L).1 && negb false
                 then Current.Invalid (Current.validate_data L).2
                 else Current.LatestNotFound)
       ∧ Current.previous_records
           (Current.merge_ufc_data elements fs_no_latest true false false).1 = len L
       ∧ Current.total_records
           (Current.merge_ufc_data elements fs_no_latest true false false).1 = 0
       ∧ living_file (Current.merge_ufc_data elements fs_no_latest true false false).2
         = Some L).
Proof.
  apply (merge_without_latest elements fs_no_latest true false false). reflexivity.
Defined.

Lemma merge_force_missing_name_witness :
  Current.status (Current.merge_ufc_data elements fs_no_name true true false).1
  = Current.failed
  ∧ Current.error (Current.merge_ufc_data elements fs_no_name true true false).1
    = Some (Current.KeyError "Name")
  ∧ Current.previous_records (Current.merge_ufc_data elements fs_no_name true true false).1
    = len living_no_name
  ∧ Current.new_records (Current.merge_ufc_data elements fs_no_name true true false).1
    = len latest_a
  ∧ living_file (Current.merge_ufc_data elements fs_no_name true true false).2
    = Some living_no_name.
Proof.
  apply (merge_force_missing_name elements fs_no_name true false living_no_name latest_a).
  - reflexivity.
  - reflexivity.
  - left. by_computation.
Defined.

(** ** Order and distinctness under [keep_first] *)

Section KeepFirstOrder.
Context {A : Type} (eqb : A → A → bool).


Lemma filter_split_two (P : A → Prop) `{!∀ x, Decision (P x)} (k : list A) l1 x l2 y l3 :
  filter P k = l1 ++ x :: l2 ++ y :: l3 →
  ∃ k1 k2 k3, k = k1 ++ x :: k2 ++ y :: k3.
Proof.
  intros E.
  assert (l1 ++ x :: l2 ++ y :: l3 `sublist_of` k) as Hs.
  { rewrite <- E. apply sublist_filter. }
  apply sublist_app_l in Hs as (k1 & k' & -> & _ & Hs).
  apply sublist_cons_l in Hs as (k1' & k'' & -> & Hs).
  apply sublist_app_l in Hs as (k2 & k3' & -> & _ & Hs).
  apply sublist_cons_l in Hs as (k2' & k3 & -> & _).
  exists (k1 ++ k1'), (k2 ++ k2'), k3. by rewrite <- !app_assoc.
Qed.

Lemma keep_first_pairwise (l : list A) l1 x l2 y l3 :
  keep_first eqb l = l1 ++ x :: l2 ++ y :: l3 → eqb x y = false.
Proof.
  revert l1 l2 l3. induction l as [|a t IH]; intros l1 l2 l3 E; simpl in E.
  { by destruct l1. }
  destruct l1 as [|b l1]; simpl in E; injection E as -> E.
  - assert (y ∈ filter (λ z, eqb x z = false) (keep_first eqb t)) as Hy.
    { rewrite E. apply elem_of_app. right. left. }
    apply list_elem_of_filter in Hy. tauto.
  - apply filter_split_two in E as (k1 & k2 & k3 & E). by apply (IH k1 k2 k3).
Qed.

Lemma keep_first_fixed (l : list A) :
  (∀ l1 x l2 y l3, l = l1 ++ x :: l2 ++ y :: l3 → eqb x y = false) →
  keep_first eqb l = l.
Proof.
  induction l as [|a t IH]; intros H; simpl; [done|].
  rewrite IH.
  - f_equal. apply filter_all. intros y Hy.
    apply list_elem_of_split in Hy as (t1 & t2 & ->). by apply (H [] a t1 y t2).
  - intros l1 x l2 y l3 ->. by apply (H (a :: l1) x l2 y l3).
Qed.

End KeepFirstOrder.

Lemma row_eqb_false cols (r1 r2 : Row) :
  row_eqb cols r1 r2 = false → ∃ c, c ∈ cols ∧ r1 !! c ≠ r2 !! c.
Proof.
  unfold row_eqb. induction cols as [|c cols IH]; simpl; [done|].
  intros [E|E]%andb_false_iff.
  - exists c. split; [left|]. by apply bool_decide_eq_false in E.
  - destruct (IH E) as (c' & Hc & Hne). exists c'. split; [by right|done].
Qed.

Lemma filter_ext_in {A} (P Q : A → Prop) `{!∀ x, Decision (P x), !∀ x, Decision (Q x)}
    (l : list A) :
  (∀ x, x ∈ l → P x ↔ Q x) → filter P l = filter Q l.
Proof.
  induction l as [|x t IH]; intros Hall; [done|].
  rewrite !filter_cons, IH by (intros y Hy; apply Hall; by right).
  assert (P x ↔ Q x) as Hx by (apply Hall; left).
  destruct (decide (P x)) as [HP|HP], (decide (Q x)) as [HQ|HQ]; try done; tauto.
Qed.

(** ** The current script: the file written and the report *)

Section CurrentWritten.
Import Current.
Variable set_order : gset cell → list cell.

Lemma purged_rows_alt L N :
  purged_rows L N = filter (λ r : Row, r !! "Name" ∉ names N) (rows L).
Proof.
  apply filter_ext_in. intros r Hr. rewrite elem_of_purged_fighters.
  split; [tauto|]. intros Hn. split; [|done].
  by apply (list_elem_of_fmap_2 (λ r : Row, r !! "Name")).
Qed.


(** X5. The file a successful merge writes holds no two rows equal on all
    its columns: [drop_duplicates] leaves it unchanged, and any two of
    its rows differ in some column. *)
Theorem merge_result_no_duplicate_rows fs backup force st fs' L :
  living_file fs = Some L →
  merge_ufc_data set_order fs backup force false = (st, fs') →
  status st = success →
  ∃ M, living_file fs' = Some M ∧ drop_duplicates M = M
       ∧ ∀ l1 (r1 : Row) l2 (r2 : Row) l3,
           rows M = l1 ++ r1 :: l2 ++ r2 :: l3 →
           ∃ c, c ∈ columns M ∧ r1 !! c ≠ r2 !! c.
Proof.
  intros HL Hrun Hst.
  destruct (merge_success_inv set_order fs backup force false st fs' L HL Hrun Hst)
    as (N & HN & HcL & HcN & _ & Hliv & _).
  eexists. split; [done|]. rewrite combined_data_eq by done. split.
  - unfold drop_duplicates. cbn [rows columns]. f_equal.
    apply (keep_first_idemp _ (row_eqb_sym _) (row_eqb_trans _)).
  - cbn [rows columns]. intros l1 r1 l2 r2 l3 E.
    apply row_eqb_false. by eapply keep_first_pairwise.
Qed.

(** X6. The report of a successful merge over an existing living file:
    the previous and new counts are the sizes of the two files; the
    preserved count is the number of living rows whose fighter the latest
    file does not name, at most the previous count; the total is at most
    new plus preserved, and positive when the latest file has a row. *)
Theorem merge_counts fs backup force dry st fs' L N :
  living_file fs = Some L → latest_file fs = Some N →
  merge_ufc_data set_order fs backup force dry = (st, fs') →
  status st = success →
  previous_records st = len L
  ∧ new_records st = len N
  ∧ preserved_records st
    = Z.of_nat (length (filter (λ r : Row, r !! "Name" ∉ names N) (rows L)))
  ∧ preserved_records st ≤ previous_records st
  ∧ total_records st ≤ new_records st + preserved_records st
  ∧ (0 < new_records st → 0 < total_records st).
Proof.
  intros HL HN Hrun Hst.
  destruct (merge_success_inv set_order fs backup force dry st fs' L HL Hrun Hst)
    as (N' & HN' & HcL & HcN & _ & _ & _ & Hp & Hn & Ht & _ & Hpr & _).
  simplify_eq. rewrite Hp, Hn, Ht, Hpr. unfold len.
  rewrite rows_purged_data, <- purged_rows_alt.
  rewrite combined_data_eq by done. cbn [rows].
  pose proof (keep_first_length (row_eqb (combined_columns L N)) (rows N ++ purged_rows L N))
    as Hle.
  rewrite length_app in Hle.
  pose proof (length_filter (λ r : Row, r !! "Name" ∈ purged_fighters L N) (rows L)) as Hf.
  fold (purged_rows L N) in Hf.
  split_and!; try done; try lia.
  intros Hpos. destruct (rows N) as [|r t] eqn:E; [simpl in Hpos; lia|].
  simpl. lia.
Qed.

Lemma validate_data_message df :
  (validate_data df).1 = true → validate_data df = (true, ValidationPassed).
Proof.
  unfold validate_data. destruct (empty df); [done|].
  destruct (negb _); [done|]. by destruct (existsb _ _).
Qed.

(** X7. Without [force], a successful merge over an existing living file
    started from a living file that passes [validate_data], and writes
    one that passes it again. *)
Theorem unforced_merge_keeps_validity fs backup st fs' L :
  living_file fs = Some L →
  merge_ufc_data set_order fs backup false false = (st, fs') →
  status st = success →
  validate_data L = (true, ValidationPassed)
  ∧ ∃ M, living_file fs' = Some M ∧ validate_data M = (true, ValidationPassed).
Proof.
  intros HL Hrun Hst.
  destruct (merge_success_inv set_order fs backup false false st fs' L HL Hrun Hst)
    as (N & HN & HcL & HcN & Hv & Hliv & _).
  destruct (Hv eq_refl) as [H1 H2]. split; [by apply validate_data_message|].
  eexists. split; [done|]. by apply validate_data_message, combined_data_valid.
Qed.

(** X8. The columns of the file written.  When every living row belongs
    to a fighter of the latest file they are the columns of the latest
    file alone, so a column only the living file had is lost.  When some
    fighter is preserved, the columns only the living file has follow
    those of the latest file. *)
Theorem merge_result_columns fs backup force st fs' L N :
  living_file fs = Some L → latest_file fs = Some N →
  merge_ufc_data set_order fs backup force false = (st, fs') →
  status st = success →
  ∃ M, living_file fs' = Some M
    ∧ ((∀ r : Row, r ∈ rows L → r !! "Name" ∈ names N) → columns M = columns N)
    ∧ ((∃ r : Row, r ∈ rows L ∧ r !! "Name" ∉ names N) →
       columns M = columns N ++ filter (λ c, c ∉ columns N) (columns L)).
Proof.
  intros HL HN Hrun Hst.
  destruct (merge_success_inv set_order fs backup force false st fs' L HL Hrun Hst)
    as (N' & HN' & HcL & HcN & _ & Hliv & _).
  simplify_eq. eexists. split; [done|]. rewrite combined_data_eq by done.
  cbn [columns]. unfold combined_columns. rewrite purged_rows_alt. split.
  - intros Hall. rewrite filter_none; [done|]. intros r Hr Hn. by apply Hn, Hall.
  - intros (r & Hr & Hn).
    destruct (filter _ (rows L)) as [|x t] eqn:E; [|done].
    assert (r ∈ filter (λ r : Row, r !! "Name" ∉ names N) (rows L)) as Hin
      by by apply list_elem_of_filter.
    rewrite E in Hin. by apply elem_of_nil in Hin.
Qed.

End CurrentWritten.


Lemma merge_result_no_duplicate_rows_witness :
  ∃ M, living_file (Current.merge_ufc_data elements fs_a true false false).2 = Some M
       ∧ drop_duplicates M = M
       ∧ ∀ l1 (r1 : Row) l2 (r2 : Row) l3,
           rows M = l1 ++ r1 :: l2 ++ r2 :: l3 →
           ∃ c, c ∈ columns M ∧ r1 !! c ≠ r2 !! c.
Proof.
  apply (merge_result_no_duplicate_rows elements fs_a true false
           (Current.merge_ufc_data elements fs_a true false false).1
           (Current.merge_ufc_data elements fs_a true false false).2 living_a).
  - reflexivity.
  - apply surjective_pairing.
  - vm_compute. reflexivity.
Defined.

Lemma merge_counts_witness :
  Current.previous_records (Current.merge_ufc_data elements fs_a true false false).1
  = len living_a
  ∧ Current.new_records (Current.merge_ufc_data elements fs_a true false false).1
    = len latest_a
  ∧ Current.preserved_records (Current.merge_ufc_data elements fs_a true false false).1
    = Z.of_nat (length (filter (λ r : Row, r !! "Name" ∉ names latest_a) (rows living_a)))
  ∧ Current.preserved_records (Current.merge_ufc_data elements fs_a true false false).1
    ≤ Current.previous_records (Current.merge_ufc_data elements fs_a true false false).1
  ∧ Current.total_records (Current.merge_ufc_data elements fs_a true false false).1
    ≤ Current.new_records (Current.merge_ufc_data elements fs_a true false false).1
      + Current.preserved_records (Current.merge_ufc_data elements fs_a true false false).1
  ∧ (0 < Current.new_records (Current.merge_ufc_data elements fs_a true false false).1 →
     0 < Current.total_records (Current.merge_ufc_data elements fs_a true false false).1).
Proof.
  apply (merge_counts elements fs_a true false false
           (Current.merge_ufc_data elements fs_a true false false).1
           (Current.merge_ufc_data elements fs_a true false false).2 living_a latest_a).
  - reflexivity.
  - reflexivity.
  - apply surjective_pairing.
  - vm_compute. reflexivity.
Defined.

Lemma unforced_merge_keeps_validity_witness :
  Current.validate_data living_a = (true, Current.ValidationPassed)
  ∧ ∃ M, living_file (Current.merge_ufc_data elements fs_a true false false).2 = Some M
         ∧ Current.validate_data M = (true, Current.ValidationPassed).
Proof.
  apply (unforced_merge_keeps_validity elements fs_a true
           (Current.merge_ufc_data elements fs_a true false false).1
           (Current.merge_ufc_data elements fs_a true false false).2 living_a).
  - reflexivity.
  - apply surjective_pairing.
  - vm_compute. reflexivity.
Defined.

Lemma merge_result_columns_witness :
  ∃ M, living_file (Current.merge_ufc_data elements fs_a true false false).2 = Some M
    ∧ ((∀ r : Row, r ∈ rows living_a → r !! "Name" ∈ names latest_a) →
       columns M = columns latest_a)
    ∧ ((∃ r : Row, r ∈ rows living_a ∧ r !! "Name" ∉ names latest_a) →
       columns M = columns latest_a
                   ++ filter (λ c, c ∉ columns latest_a) (columns living_a)).
Proof.
  apply (merge_result_columns elements fs_a true false
           (Current.merge_ufc_data elements fs_a true false false).1
           (Current.merge_ufc_data elements fs_a true false false).2 living_a latest_a).
  - reflexivity.
  - reflexivity.
  - apply surjective_pairing.
  - vm_compute. reflexivity.
Defined.

(** ** The current script: validation, first runs, NaN names *)

Section ValidationMore.
Import Current.

Lemma no_duplicates_positions df :
  no_duplicates df ↔
  ∀ l1 (r1 : Row) l2 (r2 : Row) l3,
    rows df = l1 ++ r1 :: l2 ++ r2 :: l3 →
    ¬ (r1 !! "Name" = r2 !! "Name"
       ∧ r1 !! "Division Title" = r2 !! "Division Title").
Proof.
  unfold no_duplicates. split.
  - intros Hnd l1 r1 l2 r2 l3 E Hsame.
    assert (r1 ∈ rows df) as Hr1 by (rewrite E; apply elem_of_app; right; left).
    specialize (Hnd r1 Hr1). rewrite E in Hnd.
    rewrite filter_app, filter_cons_True in Hnd by apply row_eqb_refl.
    rewrite filter_app, filter_cons_True in Hnd by by apply row_eqb_identity.
    rewrite length_app in Hnd. cbn [length] in Hnd. rewrite length_app in Hnd.
    cbn [length] in Hnd. lia.
  - intros Hpos r Hr.
    destruct (filter _ (rows df)) as [|x [|y t]] eqn:E; [simpl; lia..|].
    exfalso.
    assert (x ∈ filter (λ r', row_eqb identity_columns r r' = true) (rows df)) as Hx
      by (rewrite E; left).
    assert (y ∈ filter (λ r', row_eqb identity_columns r r' = true) (rows df)) as Hy
      by (rewrite E; right; left).
    apply list_elem_of_filter in Hx as [Hx _]. apply list_elem_of_filter in Hy as [Hy _].
    apply (filter_split_two _ _ [] x [] y t) in E as (k1 & k2 & k3 & E).
    apply (Hpos _ _ _ _ _ E). apply row_eqb_identity.
    apply (row_eqb_trans _ _ r); [by apply row_eqb_sym|done].
Qed.

(** X9. [validate_data] passes exactly when the frame has a row, has the
    columns [Name] and [Division Title], and no two rows at different
    positions share both. *)
Theorem validate_data_passes_iff df :
  validate_data df = (true, ValidationPassed) ↔
  rows df ≠ [] ∧ "Name" ∈ columns df ∧ "Division Title" ∈ columns df
  ∧ ∀ l1 (r1 : Row) l2 (r2 : Row) l3,
      rows df = l1 ++ r1 :: l2 ++ r2 :: l3 →
      ¬ (r1 !! "Name" = r2 !! "Name"
         ∧ r1 !! "Division Title" = r2 !! "Division Title").
Proof.
  rewrite <- no_duplicates_positions. split.
  - intros E. assert ((validate_data df).1 = true) as Hv by by rewrite E.
    apply validate_data_true in Hv as (He & H1 & H2 & H3). split_and!; try done.
    intros Hr. unfold empty in He. by rewrite Hr in He.
  - intros (Hr & H1 & H2 & H3). apply validate_data_message, validate_data_true.
    split_and!; try done. unfold empty. destruct (rows df); [done|].
    destruct (columns df); [by apply elem_of_nil in H1|done].
Qed.

Variable set_order : gset cell → list cell.

(** X10. A first run does not validate.  When no living file exists, a
    latest file that fails validation is still copied as the living file,
    with status success; every later merge without [force] over that
    living file fails on the validation message and leaves it as it is. *)
Theorem first_run_skips_validation fs backup force N :
  living_file fs = None → latest_file fs = Some N →
  (validate_data N).1 = false →
  status (merge_ufc_data set_order fs backup force false).1 = success
  ∧ living_file (merge_ufc_data set_order fs backup force false).2 = Some N
  ∧ ∀ fs2 backup' dry',
      living_file fs2 = Some N →
      status (merge_ufc_data set_order fs2 backup' false dry').1 = failed
      ∧ error (merge_ufc_data set_order fs2 backup' false dry').1
        = Some (Invalid (validate_data N).2)
      ∧ living_file (merge_ufc_data set_order fs2 backup' false dry').2 = Some N.
Proof.
  intros HL HN Hv. rewrite (merge_first_run set_order fs backup force false N HL HN).
  split_and!; try done.
  intros fs2 backup' dry' HL2.
  destruct (merge_invalid_living set_order fs2 backup' dry' N HL2 Hv)
    as (note & fs3 & E & H1 & H2).
  rewrite E. done.
Qed.

Lemma purged_fighters_self N : purged_fighters N N = ∅.
Proof.
  apply set_eq. intros x. rewrite elem_of_purged_fighters.
  split; [by intros [? ?]|]. intros Hx. by apply not_elem_of_empty in Hx.
Qed.

Lemma combined_data_self N :
  (validate_data N).1 = true → combined_data N N = N.
Proof.
  intros Hv. apply validate_data_true in Hv as (He & H1 & H2 & H3).
  rewrite combined_data_eq by done.
  assert (purged_rows N N = []) as Hp.
  { apply purged_rows_nil. unfold any_purged. by rewrite purged_fighters_self. }
  unfold combined_columns. rewrite Hp, app_nil_r.
  rewrite keep_first_fixed; [by destruct N|].
  intros l1 x l2 y l3 E. destruct (row_eqb (columns N) x y) eqn:Exy; [|done].
  exfalso. apply (proj1 (no_duplicates_positions N) H3 _ _ _ _ _ E).
  rewrite row_eqb_spec in Exy. split; by apply Exy.
Qed.

(** X11. A first run followed by a merge with the same latest file: when
    that file is valid, the second run succeeds, leaves the living file
    equal to the latest file, and reports no new and no preserved
    record. *)
Theorem first_run_then_same_latest fs backup backup' force force' N :
  living_file fs = None → latest_file fs = Some N →
  (validate_data N).1 = true →
  status (merge_ufc_data set_order
            (merge_ufc_data set_order fs backup force false).2 backup' force' false).1
    = success
  ∧ living_file (merge_ufc_data set_order
                   (merge_ufc_data set_order fs backup force false).2
                   backup' force' false).2 = Some N
  ∧ total_records (merge_ufc_data set_order
                     (merge_ufc_data set_order fs backup force false).2
                     backup' force' false).1 = len N
  ∧ new_unique_records (merge_ufc_data set_order
                          (merge_ufc_data set_order fs backup force false).2
                          backup' force' false).1 = 0
  ∧ preserved_records (merge_ufc_data set_order
                         (merge_ufc_data set_order fs backup force false).2
                         backup' force' false).1 = 0.
Proof.
  intros HL HN Hv. rewrite (merge_first_run set_order fs backup force false N HL HN).
  cbn [snd]. pose proof Hv as Hv'.
  apply validate_data_true in Hv' as (He & H1 & H2 & H3).
  destruct (merge_general_run set_order (write_living fs N) backup' force' false N N)
    as (note & fs3 & E & Hliv & Hlat); try done.
  { unfold any_purged. by rewrite purged_fighters_self. }
  rewrite E. cbn [fst snd status total_records new_unique_records preserved_records].
  rewrite Hliv, combined_data_self by done. split_and!; try done; [lia|].
  unfold purged_data, any_purged. by rewrite purged_fighters_self.
Qed.

(** X12. A living row whose [Name] is NaN, in a pair of files that gets
    past validation and has the [Name] column on both sides.  When no
    latest row has a NaN name, NaN is a purged fighter, and when it is
    among the names sampled for the log line, [', '.join] raises: the
    merge ends failed with the TypeError and nothing is written.  The
    two hypotheses on [set_order] say that the listing of the purged set
    shows each of its elements and has at most five entries, so that NaN
    is sampled. *)
Theorem merge_nan_name_fails fs backup force dry L N :
  living_file fs = Some L → latest_file fs = Some N →
  (force = false → (validate_data L).1 = true ∧ (validate_data N).1 = true) →
  "Name" ∈ columns L → "Name" ∈ columns N →
  None ∈ names L → None ∉ names N →
  (∀ x, x ∈ purged_fighters L N → x ∈ set_order (purged_fighters L N)) →
  (length (set_order (purged_fighters L N)) ≤ 5)%nat →
  status (merge_ufc_data set_order fs backup force dry).1 = failed
  ∧ error (merge_ufc_data set_order fs backup force dry).1 = Some TypeError
  ∧ total_records (merge_ufc_data set_order fs backup force dry).1 = 0
  ∧ living_file (merge_ufc_data set_order fs backup force dry).2 = Some L.
Proof.
  intros HL HN Hv HcL HcN HnL HnN Hall Hlen.
  assert (None ∈ purged_fighters L N) as Hp by by apply elem_of_purged_fighters.
  unfold merge_ufc_data. rewrite HL.
  set (b := if backup && negb dry then _ else _).
  assert (living_file b.2 = Some L ∧ latest_file b.2 = Some N) as [Hb1 Hb2].
  { subst b. destruct backup, dry; simpl; try done. by destruct (backup_file fs). }
  destruct b as [note fs1]. simpl in Hb1, Hb2.
  destruct (validate_data L) as [vL mL] eqn:EL.
  destruct (validate_data N) as [vN mN] eqn:EN.
  assert (negb vL && negb force = false) as ->.
  { destruct force; [by rewrite andb_false_r|].
    destruct (Hv eq_refl) as [H1 _]. simpl in H1. by subst. }
  rewrite Hb2, EN.
  assert (negb vN && negb force = false) as ->.
  { destruct force; [by rewrite andb_false_r|].
    destruct (Hv eq_refl) as [_ H2]. simpl in H2. by subst. }
  rewrite !bool_decide_eq_true_2 by done. cbn [andb negb].
  assert (any_purged L N = true) as ->.
  { unfold any_purged. apply negb_true_iff, bool_decide_eq_false. intros E.
    rewrite E in Hp. by apply not_elem_of_empty in Hp. }
  assert (join_ok (take 5 (set_order (purged_fighters L N))) = false) as ->; [|done].
  rewrite take_ge by done. unfold join_ok.
  apply not_true_iff_false. rewrite forallb_forall. intros Hok.
  specialize (Hok None). rewrite <- list_elem_of_In in Hok.
  specialize (Hok (Hall _ Hp)). apply bool_decide_eq_true in Hok. by destruct Hok.
Qed.

End ValidationMore.

Lemma first_run_skips_validation_witness :
  Current.status (Current.merge_ufc_data elements fs_first_dup true false false).1
  = Current.success
  ∧ living_file (Current.merge_ufc_data elements fs_first_dup true false false).2
    = Some latest_dup
  ∧ ∀ fs2 backup' dry',
      living_file fs2 = Some latest_dup →
      Current.status (Current.merge_ufc_data elements fs2 backup' false dry').1
      = Current.failed
      ∧ Current.error (Current.merge_ufc_data elements fs2 backup' false dry').1
        = Some (Current.Invalid (Current.validate_data latest_dup).2)
      ∧ living_file (Current.merge_ufc_data elements fs2 backup' false dry').2
        = Some latest_dup.
Proof.
  apply (first_run_skips_validation elements fs_first_dup true false latest_dup).
  - reflexivity.
  - reflexivity.
  - vm_compute. reflexivity.
Defined.

Lemma first_run_then_same_latest_witness :
  Current.status
    (Current.merge_ufc_data elements
       (Current.merge_ufc_data elements fs_first true false false).2 true false false).1
  = Current.success
  ∧ living_file
      (Current.merge_ufc_data elements
         (Current.merge_ufc_data elements fs_first true false false).2 true false false).2
    = Some latest_a
  ∧ Current.total_records
      (Current.merge_ufc_data elements
         (Current.merge_ufc_data elements fs_first true false false).2 true false false).1
    = len latest_a
  ∧ Current.new_unique_records
      (Current.merge_ufc_data elements
         (Current.merge_ufc_data elements fs_first true false false).2 true false false).1
    = 0
  ∧ Current.preserved_records
      (Current.merge_ufc_data elements
         (Current.merge_ufc_data elements fs_first true false false).2 true false false).1
    = 0.
Proof.
  apply (first_run_then_same_latest elements fs_first true true false false latest_a).
  - reflexivity.
  - reflexivity.
  - vm_compute. reflexivity.
Defined.

Lemma merge_nan_name_fails_witness :
  Current.status (Current.merge_ufc_data elements fs_nan true false false).1
  = Current.failed
  ∧ Current.error (Current.merge_ufc_data elements fs_nan true false false).1
    = Some Current.TypeError
  ∧ Current.total_records (Current.merge_ufc_data elements fs_nan true false false).1 = 0
  ∧ living_file (Current.merge_ufc_data elements fs_nan true false false).2
    = Some living_nan.
Proof.
  apply (merge_nan_name_fails elements fs_nan true false false living_nan latest_a).
  - reflexivity.
  - reflexivity.
  - intros _. split; vm_compute; reflexivity.
  - by_computation.
  - by_computation.
  - by_computation.
  - by_computation.
  - intros x Hx. by apply elem_of_elements.
  - by_computation.
Defined.

(** ** Directories *)

Section DiskFacts.
Import Disk.

Lemma lookup_put (k : Kind) (t : string) (file : option DataFrame) (disk : Disk)
    (t' : string) (k' : Kind) :
  put k t file disk !! (t', k')
  = if decide ((t, k) = (t', k')) then file else disk !! (t', k').
Proof.
  unfold put. destruct file as [content|].
  - by rewrite lookup_insert.
  - by rewrite lookup_delete.
Qed.

Lemma lookup_store (disk : Disk) (t : string) (fs : FS) (t' : string) (k' : Kind) :
  store disk t fs !! (t', k')
  = if decide (t = t') then
      match k' with
      | Living => living_file fs
      | Latest => latest_file fs
      | Backup => backup_file fs
      | _ => disk !! (t', k')
      end
    else disk !! (t', k').
Proof.
  unfold store. rewrite !lookup_put.
  destruct (decide (t = t')) as [->|Hne].
  - destruct k'; repeat case_decide; congruence.
  - repeat case_decide; congruence.
Qed.

Lemma files_store (disk : Disk) (t : string) (fs : FS) (t' : string) :
  files (store disk t fs) t' = if decide (t = t') then fs else files disk t'.
Proof.
  unfold files. rewrite !lookup_store.
  destruct (decide (t = t')); [by destruct fs|done].
Qed.

Lemma store_files (disk : Disk) (t : string) : store disk t (files disk t) = disk.
Proof.
  apply map_eq. intros [t' k']. rewrite lookup_store.
  destruct (decide (t = t')) as [->|]; [|done]. by destruct k'.
Qed.

Lemma FS_eta fs fs' :
  living_file fs = living_file fs' → latest_file fs = latest_file fs' →
  backup_file fs = backup_file fs' → fs = fs'.
Proof. destruct fs, fs'. simpl. by intros -> -> ->. Qed.

End DiskFacts.

(** ** The current script: [process_all_files] *)

Section CurrentBatchFacts.
Import Disk Current.
Variable set_order : gset cell → list cell.
Variables backup force dry_run : bool.

Local Abbreviation step := (CurrentBatch.process_one set_order backup force dry_run).
Local Abbreviation merge fs := (merge_ufc_data set_order fs backup force dry_run).
Local Abbreviation can_merge := (mergeable set_order backup force dry_run).

(** A merge that finds a latest file is never [skipped]. *)
Lemma merge_not_skipped fs :
  is_Some (latest_file fs) → status (merge fs).1 ≠ skipped.
Proof.
  intros [N HN]. unfold merge_ufc_data. rewrite HN.
  destruct (living_file fs) as [L|] eqn:HL; [|done].
  set (b := if backup && negb dry_run then _ else _).
  assert (latest_file b.2 = Some N) as Hb.
  { subst b. destruct backup, dry_run; simpl; try done. by destruct (backup_file fs). }
  destruct b as [note fs1]. simpl in Hb.
  destruct (validate_data L) as [vL mL].
  destruct (negb vL && negb force); [done|]. rewrite Hb.
  destruct (validate_data N) as [vN mN].
  destruct (negb vN && negb force); [done|].
  destruct (negb _); [done|]. by destruct (_ && negb _).
Qed.

(** The status of a merge depends on the living and the latest file
    only. *)
Lemma merge_status_files fs fs' :
  living_file fs = living_file fs' → latest_file fs = latest_file fs' →
  status (merge fs).1 = status (merge fs').1.
Proof.
  assert (∀ fs0 L, living_file fs0 = Some L →
            status (merge fs0).1
            = (let '(vL, _) := validate_data L in
               if negb vL && negb force then failed else
               match latest_file fs0 with
               | None => skipped
               | Some N =>
                   let '(vN, _) := validate_data N in
                   if negb vN && negb force then failed
                   else if negb (bool_decide ("Name" ∈ columns L)
                                 && bool_decide ("Name" ∈ columns N)) then failed
                   else if any_purged L N
                           && negb (join_ok (take 5 (set_order (purged_fighters L N))))
                   then failed else success
               end)) as Hst.
  { intros fs0 L HL. unfold merge_ufc_data. rewrite HL.
    set (b := if backup && negb dry_run then _ else _).
    assert (latest_file b.2 = latest_file fs0) as Hb.
    { subst b. destruct backup, dry_run; simpl; try done. by destruct (backup_file fs0). }
    destruct b as [note fs1]. simpl in Hb.
    destruct (validate_data L) as [vL mL].
    destruct (negb vL && negb force); [done|]. rewrite Hb.
    destruct (latest_file fs0) as [N|]; [|done].
    destruct (validate_data N) as [vN mN].
    destruct (negb vN && negb force); [done|].
    destruct (negb _); [done|]. by destruct (_ && negb _). }
  intros HL HN. destruct (living_file fs) as [L|] eqn:EL.
  - rewrite (Hst fs L EL), (Hst fs' L) by done. by rewrite HN.
  - unfold merge_ufc_data. rewrite <- HL, <- HN, EL. by destruct (latest_file fs).
Qed.

Lemma merge_dry_files fs : dry_run = true → (merge fs).2 = fs.
Proof.
  intros Hd. destruct (merge_frame set_order fs backup force dry_run) as [H1 H2].
  apply FS_eta; [apply H2; by right|done|].
  destruct (living_file fs) as [L|] eqn:HL.
  - destruct (merge_backup_step set_order fs backup force dry_run L HL) as [_ ->].
    by rewrite Hd, andb_false_r.
  - unfold merge_ufc_data. rewrite HL. destruct (latest_file fs); [|done].
    by rewrite Hd.
Qed.

(** What one turn of the loop does. *)
Lemma step_eq r disk t :
  step (r, disk) t
  = if exists_file disk t Latest then
      (match status (merge (files disk t)).1 with
       | success =>
           CurrentBatch.mkResults (CurrentBatch.success r ++ [t]) (CurrentBatch.failed r)
                     (CurrentBatch.skipped r)
                     (<[t := CurrentBatch.Merged (merge (files disk t)).1]> (CurrentBatch.stats r))
       | skipped =>
           CurrentBatch.mkResults (CurrentBatch.success r) (CurrentBatch.failed r)
                     (CurrentBatch.skipped r ++ [t])
                     (<[t := CurrentBatch.Merged (merge (files disk t)).1]> (CurrentBatch.stats r))
       | failed =>
           CurrentBatch.mkResults (CurrentBatch.success r) (CurrentBatch.failed r ++ [t])
                     (CurrentBatch.skipped r)
                     (<[t := CurrentBatch.Merged (merge (files disk t)).1]> (CurrentBatch.stats r))
       end, store disk t (merge (files disk t)).2)
    else
      (CurrentBatch.mkResults (CurrentBatch.success r) (CurrentBatch.failed r)
                 (CurrentBatch.skipped r ++ [t])
                 (<[t := CurrentBatch.LatestFileNotFound]> (CurrentBatch.stats r)), disk).
Proof.
  unfold CurrentBatch.process_one. destruct (exists_file disk t Latest); [|done].
  by destruct (merge_ufc_data _ _ _ _ _) as [st fs'].
Qed.

Lemma exists_file_latest disk t :
  exists_file disk t Latest = true ↔ is_Some (latest_file (files disk t)).
Proof. unfold exists_file. by rewrite bool_decide_eq_true. Qed.

(** One turn leaves every latest, scraped and original file, and every
    file of another data type, as it was. *)
Lemma step_frame r disk t t' k :
  t' ≠ t ∨ k = Latest ∨ k = Raw ∨ k = Original →
  (step (r, disk) t).2 !! (t', k) = disk !! (t', k).
Proof.
  intros Hk. rewrite step_eq. destruct (exists_file disk t Latest); [|done].
  cbn [snd]. rewrite lookup_store. destruct (decide (t = t')) as [<-|]; [|done].
  destruct Hk as [?|[-> |[-> | ->]]]; try done.
  by destruct (merge_frame set_order (files disk t) backup force dry_run) as [-> _].
Qed.

Lemma foldl_frame l r disk t' k :
  t' ∉ l ∨ k = Latest ∨ k = Raw ∨ k = Original →
  (foldl step (r, disk) l).2 !! (t', k) = disk !! (t', k).
Proof.
  revert r disk. induction l as [|t l IH]; intros r disk Hk; [done|].
  cbn [foldl]. destruct (step (r, disk) t) as [r1 d1] eqn:E.
  rewrite IH.
  - change d1 with (r1, d1).2. rewrite <- E. apply step_frame.
    destruct Hk as [Hk|Hk]; [left|by right]. intros ->. apply Hk. left.
  - destruct Hk as [Hk|Hk]; [left|by right]. intros ?. apply Hk. by right.
Qed.

Lemma foldl_stats_frame l r disk t' :
  t' ∉ l → CurrentBatch.stats (foldl step (r, disk) l).1 !! t' = CurrentBatch.stats r !! t'.
Proof.
  revert r disk. induction l as [|t l IH]; intros r disk Hk; [done|].
  cbn [foldl]. destruct (step (r, disk) t) as [r1 d1] eqn:E.
  rewrite IH by (intros ?; apply Hk; by right).
  change r1 with (r1, d1).1. rewrite <- E, step_eq.
  assert (t ≠ t') as Hne by (intros ->; apply Hk; left).
  destruct (exists_file disk t Latest); cbn [fst].
  - destruct (status _); cbn [CurrentBatch.stats]; by rewrite lookup_insert_ne.
  - cbn [CurrentBatch.stats]. by rewrite lookup_insert_ne.
Qed.

Lemma exists_file_step r disk t t' :
  exists_file (step (r, disk) t).2 t' Latest = exists_file disk t' Latest.
Proof. unfold exists_file. rewrite step_frame; [done|]. right. by left. Qed.

Lemma foldl_lists l r disk :
  CurrentBatch.success (foldl step (r, disk) l).1 ++
  CurrentBatch.failed (foldl step (r, disk) l).1 ++
  CurrentBatch.skipped (foldl step (r, disk) l).1
  ≡ₚ (CurrentBatch.success r ++ CurrentBatch.failed r ++ CurrentBatch.skipped r) ++ l.
Proof.
  revert r disk. induction l as [|t l IH]; intros r disk.
  { by rewrite app_nil_r. }
  cbn [foldl]. destruct (step (r, disk) t) as [r1 d1] eqn:E. rewrite IH.
  change r1 with (r1, d1).1. rewrite <- E, step_eq.
  change (t :: l) with ([t] ++ l). rewrite (assoc app _ [t] l).
  apply Permutation_app_tail.
  destruct (exists_file disk t Latest); cbn [fst].
  - destruct (status _); cbn [CurrentBatch.success CurrentBatch.failed CurrentBatch.skipped].
    + rewrite <- !(assoc app). apply Permutation_app_head.
      rewrite (Permutation_app_comm [t]). by rewrite <- !(assoc app).
    + by rewrite <- !(assoc app).
    + rewrite <- !(assoc app). do 2 apply Permutation_app_head.
      apply Permutation_app_comm.
  - cbn [CurrentBatch.success CurrentBatch.failed CurrentBatch.skipped].
    by rewrite <- !(assoc app).
Qed.

Lemma foldl_skipped l r disk :
  CurrentBatch.skipped (foldl step (r, disk) l).1
  = CurrentBatch.skipped r ++ filter (λ t, exists_file disk t Latest = false) l.
Proof.
  revert r disk. induction l as [|t l IH]; intros r disk.
  { by rewrite app_nil_r. }
  cbn [foldl]. destruct (step (r, disk) t) as [r1 d1] eqn:E. rewrite IH.
  assert (∀ t', exists_file d1 t' Latest = exists_file disk t' Latest) as Hex.
  { intros t'. change d1 with (r1, d1).2. rewrite <- E. apply exists_file_step. }
  rewrite (list_filter_iff _ (λ t, exists_file disk t Latest = false))
    by (intros t'; by rewrite Hex).
  change r1 with (r1, d1).1. rewrite <- E, step_eq.
  destruct (exists_file disk t Latest) eqn:Et; cbn [fst].
  - rewrite filter_cons_False by by rewrite Et.
    pose proof (merge_not_skipped (files disk t)) as Hs.
    destruct (status _); cbn [CurrentBatch.skipped]; try done.
    exfalso. apply Hs; [|done]. by apply exists_file_latest.
  - rewrite filter_cons_True by done. cbn [CurrentBatch.skipped].
    by rewrite <- (assoc app).
Qed.

Lemma foldl_dom l r disk :
  dom (CurrentBatch.stats (foldl step (r, disk) l).1)
  = dom (CurrentBatch.stats r) ∪ list_to_set l.
Proof.
  revert r disk. induction l as [|t l IH]; intros r disk.
  { cbn. by rewrite (right_id_L ∅ (∪)). }
  cbn [foldl]. destruct (step (r, disk) t) as [r1 d1] eqn:E. rewrite IH.
  assert (dom (CurrentBatch.stats r1) = dom (CurrentBatch.stats r) ∪ {[t]}) as ->.
  { change r1 with (r1, d1).1. rewrite <- E, step_eq.
    destruct (exists_file disk t Latest); cbn [fst].
    - destruct (status _); cbn [CurrentBatch.stats]; rewrite dom_insert_L;
        apply (comm_L (∪)).
    - cbn [CurrentBatch.stats]. rewrite dom_insert_L. apply (comm_L (∪)). }
  cbn [list_to_set]. by rewrite (assoc_L (∪)).
Qed.

(** Each listed data type is merged on its own files. *)
Lemma foldl_isolated l r disk t :
  NoDup l → t ∈ l →
  files (foldl step (r, disk) l).2 t
  = (if exists_file disk t Latest then (merge (files disk t)).2 else files disk t)
  ∧ CurrentBatch.stats (foldl step (r, disk) l).1 !! t
    = Some (if exists_file disk t Latest then CurrentBatch.Merged (merge (files disk t)).1
            else CurrentBatch.LatestFileNotFound).
Proof.
  revert r disk. induction l as [|t0 l IH]; intros r disk Hnd Ht.
  { by apply elem_of_nil in Ht. }
  apply NoDup_cons in Hnd as [Ht0 Hnd].
  cbn [foldl]. destruct (step (r, disk) t0) as [r1 d1] eqn:E.
  destruct (decide (t = t0)) as [->|Hne].
  - split.
    + unfold files at 1. rewrite !foldl_frame by by left.
      change (files d1 t0 = if exists_file disk t0 Latest
                            then (merge (files disk t0)).2 else files disk t0).
      change d1 with (r1, d1).2. rewrite <- E, step_eq.
      destruct (exists_file disk t0 Latest); [|done].
      cbn [snd]. rewrite files_store. by rewrite decide_True.
    + rewrite foldl_stats_frame by done.
      change r1 with (r1, d1).1. rewrite <- E, step_eq.
      destruct (exists_file disk t0 Latest); cbn [fst].
      * destruct (status _); cbn [CurrentBatch.stats]; by rewrite lookup_insert_eq.
      * cbn [CurrentBatch.stats]. by rewrite lookup_insert_eq.
  - apply elem_of_cons in Ht as [?|Ht]; [done|].
    destruct (IH r1 d1 Hnd Ht) as [H1 H2]. rewrite H1, H2.
    assert (files d1 t = files disk t) as ->.
    { unfold files. change d1 with (r1, d1).2. rewrite <- E.
      rewrite !step_frame by by left. done. }
    assert (exists_file d1 t Latest = exists_file disk t Latest) as ->.
    { change d1 with (r1, d1).2. rewrite <- E. apply exists_file_step. }
    done.
Qed.

Lemma foldl_dry l r disk : dry_run = true → (foldl step (r, disk) l).2 = disk.
Proof.
  intros Hd. revert r disk. induction l as [|t l IH]; intros r disk; [done|].
  cbn [foldl]. destruct (step (r, disk) t) as [r1 d1] eqn:E. rewrite IH.
  change d1 with (r1, d1).2. rewrite <- E, step_eq.
  destruct (exists_file disk t Latest); [|done]. cbn [snd].
  rewrite merge_dry_files by done. apply store_files.
Qed.

Lemma mergeable_step r disk t t' :
  ¬ can_merge disk t → can_merge (step (r, disk) t).2 t' ↔ can_merge disk t'.
Proof.
  intros Hn. unfold mergeable. rewrite exists_file_step.
  enough (living_file (files (step (r, disk) t).2 t') = living_file (files disk t')
          ∧ latest_file (files (step (r, disk) t).2 t') = latest_file (files disk t'))
    as [H1 H2] by by rewrite (merge_status_files _ _ H1 H2).
  split; [|unfold files; cbn [latest_file]; apply step_frame; right; by left].
  rewrite step_eq. destruct (exists_file disk t Latest) eqn:Et; [|done].
  cbn [snd]. rewrite files_store. destruct (decide (t = t')) as [<-|]; [|done].
  apply (merge_frame set_order). left. intros Hs. apply Hn. by split.
Qed.

Lemma foldl_success_grows l r disk :
  ∃ more, CurrentBatch.success (foldl step (r, disk) l).1 = CurrentBatch.success r ++ more.
Proof.
  revert r disk. induction l as [|t l IH]; intros r disk.
  { exists []. by rewrite app_nil_r. }
  cbn [foldl]. destruct (step (r, disk) t) as [r1 d1] eqn:E.
  destruct (IH r1 d1) as [more ->].
  change r1 with (r1, d1).1. rewrite <- E, step_eq.
  destruct (exists_file disk t Latest); cbn [fst]; [|by exists more].
  destruct (status _); cbn [CurrentBatch.success]; [|by exists more..].
  exists (t :: more). by rewrite <- (assoc app).
Qed.

Lemma foldl_success l r disk :
  CurrentBatch.success (foldl step (r, disk) l).1 ≠ CurrentBatch.success r
  ↔ ∃ t, t ∈ l ∧ can_merge disk t.
Proof.
  revert r disk. induction l as [|t l IH]; intros r disk.
  { cbn. split; [done|]. intros (t & Ht & _). by apply elem_of_nil in Ht. }
  cbn [foldl]. destruct (step (r, disk) t) as [r1 d1] eqn:E.
  assert (can_merge disk t ∨ ¬ can_merge disk t) as [Hm|Hm].
  { unfold mergeable. destruct (exists_file disk t Latest); [|right; by intros [? _]].
    destruct (status _); [by left|right; by intros [_ ?]..]. }
  - split; [intros _; exists t; split; [left|done]|intros _].
    destruct (foldl_success_grows l r1 d1) as [more ->].
    change r1 with (r1, d1).1. rewrite <- E, step_eq.
    destruct Hm as [-> ->]. cbn [fst CurrentBatch.success].
    rewrite <- (assoc app). intros Heq.
    apply (f_equal length) in Heq. rewrite !length_app in Heq. cbn in Heq. lia.
  - assert (CurrentBatch.success r1 = CurrentBatch.success r) as Hr1.
    { change r1 with (r1, d1).1. rewrite <- E, step_eq.
      destruct (exists_file disk t Latest) eqn:Et; cbn [fst]; [|done].
      destruct (status _) eqn:Es; cbn [CurrentBatch.success]; try done.
      exfalso. apply Hm. by split. }
    rewrite <- Hr1, IH. split.
    + intros (t' & Ht' & Hm'). exists t'. split; [by right|].
      change d1 with (r1, d1).2 in Hm'. rewrite <- E in Hm'.
      by apply mergeable_step in Hm'.
    + intros (t' & Ht' & Hm'). exists t'.
      apply elem_of_cons in Ht' as [->|Ht']; [done|]. split; [done|].
      change d1 with (r1, d1).2. rewrite <- E. by apply mergeable_step.
Qed.

Lemma foldl_no_latest l r disk t :
  t ∈ l → exists_file disk t Latest = false →
  CurrentBatch.stats (foldl step (r, disk) l).1 !! t = Some CurrentBatch.LatestFileNotFound.
Proof.
  revert r disk. induction l as [|t0 l IH]; intros r disk Ht Hex.
  { by apply elem_of_nil in Ht. }
  cbn [foldl]. destruct (step (r, disk) t0) as [r1 d1] eqn:E.
  assert (exists_file d1 t Latest = false) as Hex1.
  { change d1 with (r1, d1).2. rewrite <- E. by rewrite exists_file_step. }
  destruct (decide (t ∈ l)) as [Hin|Hin]; [by apply IH|].
  apply elem_of_cons in Ht as [->|?]; [|done].
  rewrite foldl_stats_frame by done.
  change r1 with (r1, d1).1. rewrite <- E, step_eq, Hex. cbn [fst CurrentBatch.stats].
  by rewrite lookup_insert_eq.
Qed.

(** X13. [process_all_files] gives every data type it processes one
    outcome: the three lists of the result together are a permutation of
    the data types processed, the statistics have an entry for exactly
    these, the skipped ones are, in order, those without a latest file,
    and their entry is the short "Latest file not found" one (a merge
    that is started never ends as skipped). *)
Theorem process_all_files_outcomes types disk :
  CurrentBatch.success
    (CurrentBatch.process_all_files set_order backup force dry_run types disk).1 ++
  CurrentBatch.failed
    (CurrentBatch.process_all_files set_order backup force dry_run types disk).1 ++
  CurrentBatch.skipped
    (CurrentBatch.process_all_files set_order backup force dry_run types disk).1
  ≡ₚ CurrentBatch.data_types_to_process types
  ∧ dom (CurrentBatch.stats
           (CurrentBatch.process_all_files set_order backup force dry_run types disk).1)
    = list_to_set (CurrentBatch.data_types_to_process types)
  ∧ CurrentBatch.skipped
      (CurrentBatch.process_all_files set_order backup force dry_run types disk).1
    = filter (λ t, exists_file disk t Latest = false)
             (CurrentBatch.data_types_to_process types)
  ∧ ∀ t, t ∈ CurrentBatch.skipped
               (CurrentBatch.process_all_files set_order backup force dry_run types disk).1 →
         CurrentBatch.stats
           (CurrentBatch.process_all_files set_order backup force dry_run types disk).1 !! t
         = Some CurrentBatch.LatestFileNotFound.
Proof.
  unfold CurrentBatch.process_all_files. split_and!.
  - by rewrite foldl_lists.
  - rewrite foldl_dom. cbn [CurrentBatch.stats]. by rewrite dom_empty_L, (left_id_L ∅ (∪)).
  - by rewrite foldl_skipped.
  - intros t. rewrite foldl_skipped. cbn [CurrentBatch.skipped app].
    intros [Hex Ht]%list_elem_of_filter. by apply foldl_no_latest.
Qed.

(** X14. What a batch leaves alone: every file of a data type it does not
    process, and every latest, scraped and original file. *)
Theorem process_all_files_frame types disk t k :
  t ∉ CurrentBatch.data_types_to_process types ∨ k = Latest ∨ k = Raw ∨ k = Original →
  (CurrentBatch.process_all_files set_order backup force dry_run types disk).2 !! (t, k)
  = disk !! (t, k).
Proof. apply foldl_frame. Qed.

(** X15. A dry run of the whole batch leaves the directory as it was. *)
Theorem process_all_files_dry_run types disk :
  dry_run = true →
  (CurrentBatch.process_all_files set_order backup force dry_run types disk).2 = disk.
Proof. apply foldl_dry. Qed.

(** X16. Data types are merged independently.  When no data type is
    listed twice, the files of a data type after the batch are those its
    own merge leaves from its files before the batch, and its statistics
    are those of that merge (or the short entry, when it has no latest
    file), whatever happened to the other data types. *)
Theorem process_all_files_isolated types disk t :
  NoDup (CurrentBatch.data_types_to_process types) →
  t ∈ CurrentBatch.data_types_to_process types →
  files (CurrentBatch.process_all_files set_order backup force dry_run types disk).2 t
  = (if exists_file disk t Latest then (merge (files disk t)).2 else files disk t)
  ∧ CurrentBatch.stats
      (CurrentBatch.process_all_files set_order backup force dry_run types disk).1 !! t
    = Some (if exists_file disk t Latest then CurrentBatch.Merged (merge (files disk t)).1
            else CurrentBatch.LatestFileNotFound).
Proof. apply foldl_isolated. Qed.

End CurrentBatchFacts.

Lemma process_all_files_frame_witness :
  (CurrentBatch.process_all_files elements true false false None disk_a).2
    !! ("ground_data", Disk.Latest)
  = disk_a !! ("ground_data", Disk.Latest).
Proof.
  apply (process_all_files_frame elements true false false None disk_a
           "ground_data" Disk.Latest).
  right. by left.
Defined.

Lemma process_all_files_dry_run_witness :
  (CurrentBatch.process_all_files elements true false true None disk_a).2 = disk_a.
Proof.
  apply (process_all_files_dry_run elements true false true None disk_a). reflexivity.
Defined.

Lemma process_all_files_isolated_witness :
  Disk.files (CurrentBatch.process_all_files elements true false false None disk_a).2
    "ground_data"
  = (if Disk.exists_file disk_a "ground_data" Disk.Latest
     then (Current.merge_ufc_data elements (Disk.files disk_a "ground_data")
             true false false).2
     else Disk.files disk_a "ground_data")
  ∧ CurrentBatch.stats
      (CurrentBatch.process_all_files elements true false false None disk_a).1
      !! "ground_data"
    = Some (if Disk.exists_file disk_a "ground_data" Disk.Latest
            then CurrentBatch.Merged
                   (Current.merge_ufc_data elements (Disk.files disk_a "ground_data")
                      true false false).1
            else CurrentBatch.LatestFileNotFound).
Proof.
  apply (process_all_files_isolated elements true false false None disk_a "ground_data").
  - by_computation.
  - by_computation.
Defined.

(** ** The current script: [main] *)

Section MainFacts.
Import Disk Current.
Variable set_order : gset cell → list cell.

(** X17. The exit code of [main] is 0 or 1, and it is 0 exactly when some
    data type processed has a latest file and its merge, on the files as
    they are before the run, succeeds.  A run in which every data type is
    skipped exits with 1 although nothing failed. *)
Theorem main_exit_code args disk :
  ((CurrentBatch.main set_order args disk).1 = 0
   ∨ (CurrentBatch.main set_order args disk).1 = 1)
  ∧ ((CurrentBatch.main set_order args disk).1 = 0 ↔
     ∃ t, t ∈ CurrentBatch.data_types_to_process (CurrentBatch.types args)
          ∧ mergeable set_order (negb (CurrentBatch.no_backup args))
                      (CurrentBatch.force args) (CurrentBatch.dry_run args) disk t).
Proof.
  unfold CurrentBatch.main.
  pose proof (foldl_success set_order (negb (CurrentBatch.no_backup args))
                (CurrentBatch.force args) (CurrentBatch.dry_run args)
                (CurrentBatch.data_types_to_process (CurrentBatch.types args))
                (CurrentBatch.mkResults [] [] [] ∅) disk) as Hs.
  fold (CurrentBatch.process_all_files set_order (negb (CurrentBatch.no_backup args))
          (CurrentBatch.force args) (CurrentBatch.dry_run args)
          (CurrentBatch.types args) disk) in Hs.
  destruct (CurrentBatch.process_all_files _ _ _ _ _ _) as [r d]. cbn [fst] in *.
  rewrite <- Hs. cbn [CurrentBatch.success].
  destruct (CurrentBatch.success r); split; try by (left + right).
  - split; [done|]. by intros [].
  - split; [done|]. by intros _.
Qed.

End MainFacts.

(** ** The earlier script: outcomes and backups *)

Section LegacyRun.
Import Legacy.


(** X19. The earlier script overwrites the backup of the day: with
    [backup] the backup holds the living file as it was before this run,
    whatever it held; without [backup] it stays.  So after a second run
    on the same day the backup is the result of the first run, not the
    file before it. *)
Theorem legacy_backup_overwritten fs L :
  living_file fs = Some L →
  backup_file (merge_ufc_data fs true).2 = Some L
  ∧ backup_file (merge_ufc_data fs false).2 = backup_file fs
  ∧ ((merge_ufc_data fs true).1 = Some true →
     backup_file (merge_ufc_data (merge_ufc_data fs true).2 true).2
     = living_file (merge_ufc_data fs true).2).
Proof.
  intros HL. unfold merge_ufc_data at 1 2 3 5 6. rewrite HL. cbn [latest_file write_backup].
  destruct (latest_file fs) as [N|] eqn:HN; [|done].
  destruct (has_key_columns L && has_key_columns N); [|done]. cbn [fst snd].
  split_and!; try done. intros _.
  unfold merge_ufc_data. cbn [living_file write_living write_backup latest_file].
  rewrite HN. by destruct (_ && _).
Qed.

End LegacyRun.

Lemma legacy_backup_overwritten_witness :
  backup_file (Legacy.merge_ufc_data lfs_a true).2 = Some bouts_living
  ∧ backup_file (Legacy.merge_ufc_data lfs_a false).2 = backup_file lfs_a
  ∧ ((Legacy.merge_ufc_data lfs_a true).1 = Some true →
     backup_file (Legacy.merge_ufc_data (Legacy.merge_ufc_data lfs_a true).2 true).2
     = living_file (Legacy.merge_ufc_data lfs_a true).2).
Proof. apply (legacy_backup_overwritten lfs_a bouts_living). reflexivity. Defined.

(** ** The earlier script: rows and corrections *)

Section LegacyRows.
Import Legacy.







End LegacyRows.



(** ** The earlier script: the composite key *)

Section CompositeKey.
Import Legacy.

Lemma append_bar_inj s1 s2 t1 t2 :
  has_bar s1 = false → has_bar s2 = false →
  s1 +:+ "|" +:+ t1 = s2 +:+ "|" +:+ t2 → s1 = s2 ∧ t1 = t2.
Proof.
  revert s2. induction s1 as [|a s1 IH]; intros [|b s2] H1 H2 E; cbn in *.
  - by simplify_eq.
  - simplify_eq; by rewrite Ascii.eqb_refl in H2.
  - simplify_eq; by rewrite Ascii.eqb_refl in H1.
  - apply orb_false_iff in H1 as [_ H1]. apply orb_false_iff in H2 as [_ H2].
    injection E as -> E. destruct (IH s2 H1 H2 E) as [-> ->]. done.
Qed.

(** X22. The composite key identifies its parts: two rows with the same
    key (not NaN), whose player and date hold no [|], have the same
    player, the same opponent, and dates that read the same (a NaN date
    reads "nan"). *)
Theorem composite_key_injective (r1 r2 : Row) :
  bar_free r1 = true → bar_free r2 = true →
  is_Some (composite_key r1) →
  composite_key r1 = composite_key r2 →
  r1 !! "Player" = r2 !! "Player"
  ∧ str (r1 !! "Date") = str (r2 !! "Date")
  ∧ r1 !! "Opponent" = r2 !! "Opponent".
Proof.
  unfold bar_free, composite_key.
  intros [Hp1 Hd1]%andb_true_iff [Hp2 Hd2]%andb_true_iff.
  apply negb_true_iff in Hp1, Hd1, Hp2, Hd2.
  destruct (r1 !! "Player") as [p1|], (r1 !! "Opponent") as [o1|];
    try (by intros []); intros _.
  destruct (r2 !! "Player") as [p2|], (r2 !! "Opponent") as [o2|]; try done.
  intros E. injection E as E. cbn [str] in Hp1, Hp2.
  apply append_bar_inj in E as [-> E]; [|done..].
  apply append_bar_inj in E as [-> ->]; done.
Qed.

End CompositeKey.

Lemma composite_key_injective_witness :
  bout "A" "2020-01-01" "X" "W" "0" !! "Player"
  = bout "A" "2020-01-01" "X" "W" "6" !! "Player"
  ∧ Legacy.str (bout "A" "2020-01-01" "X" "W" "0" !! "Date")
    = Legacy.str (bout "A" "2020-01-01" "X" "W" "6" !! "Date")
  ∧ bout "A" "2020-01-01" "X" "W" "0" !! "Opponent"
    = bout "A" "2020-01-01" "X" "W" "6" !! "Opponent".
Proof.
  apply (composite_key_injective (bout "A" "2020-01-01" "X" "W" "0")
           (bout "A" "2020-01-01" "X" "W" "6")).
  - vm_compute. reflexivity.
  - vm_compute. reflexivity.
  - by_computation.
  - vm_compute. reflexivity.
Defined.

(** ** The earlier script: [batch_process_ufc_data] *)

Section LegacyBatchFacts.
Import Disk Legacy.

Lemma legacy_latest_unchanged fs backup :
  latest_file (merge_ufc_data fs backup).2 = latest_file fs.
Proof.
  unfold merge_ufc_data. destruct (living_file fs) as [L|].
  - destruct backup; cbn [latest_file write_backup];
      (destruct (latest_file fs) as [N|] eqn:HN;
         [|cbn [snd latest_file write_backup]; by rewrite ?HN]);
      destruct (_ && _); cbn [snd latest_file write_living write_backup]; by rewrite ?HN.
  - destruct (latest_file fs) eqn:HN; cbn [snd latest_file write_living]; by rewrite ?HN.
Qed.

Lemma legacy_not_false fs backup :
  is_Some (latest_file fs) → (merge_ufc_data fs backup).1 ≠ Some false.
Proof.
  intros [N HN]. unfold merge_ufc_data. destruct (living_file fs) as [L|].
  - destruct backup; cbn [latest_file write_backup]; rewrite HN; by destruct (_ && _).
  - by rewrite HN.
Qed.

(** One merge of the batch leaves the latest, scraped and original
    files, and the files of the other data types, as they were. *)
Lemma legacy_store_frame (disk : Disk) (t t' : string) (k : Kind) :
  t' ≠ t ∨ k = Latest ∨ k = Raw ∨ k = Original →
  store disk t (merge_ufc_data (files disk t) true).2 !! (t', k) = disk !! (t', k).
Proof.
  intros Hk. rewrite lookup_store. destruct (decide (t = t')) as [<-|]; [|done].
  destruct Hk as [?|[-> |[-> | ->]]]; try done.
  by rewrite legacy_latest_unchanged.
Qed.

Lemma batch_loop_cons (t : string) (rest acc : list string) (disk : Disk) :
  LegacyBatch.batch_loop (t :: rest) acc disk
  = if exists_file disk t Latest then
      match (merge_ufc_data (files disk t) true).1 with
      | Some true =>
          LegacyBatch.batch_loop rest (acc ++ [t])
            (store disk t (merge_ufc_data (files disk t) true).2)
      | Some false =>
          LegacyBatch.batch_loop rest acc
            (store disk t (merge_ufc_data (files disk t) true).2)
      | None => (None, store disk t (merge_ufc_data (files disk t) true).2)
      end
    else LegacyBatch.batch_loop rest acc disk.
Proof.
  cbn [LegacyBatch.batch_loop]. destruct (exists_file disk t Latest); [|done].
  by destruct (merge_ufc_data (files disk t) true) as [[[]|] fs'].
Qed.

Lemma batch_loop_frame (types acc : list string) (disk : Disk) (t' : string) (k : Kind) :
  t' ∉ types ∨ k = Latest ∨ k = Raw ∨ k = Original →
  (LegacyBatch.batch_loop types acc disk).2 !! (t', k) = disk !! (t', k).
Proof.
  revert acc disk. induction types as [|t rest IH]; intros acc disk Hk; [done|].
  assert (t' ∉ rest ∨ k = Latest ∨ k = Raw ∨ k = Original) as Hk1.
  { destruct Hk as [Hk|Hk]; [left|by right]. intros ?. apply Hk. by right. }
  assert (t' ≠ t ∨ k = Latest ∨ k = Raw ∨ k = Original) as Hk2.
  { destruct Hk as [Hk|Hk]; [left|by right]. intros ->. apply Hk. left. }
  rewrite batch_loop_cons. destruct (exists_file disk t Latest); [|by apply IH].
  destruct (merge_ufc_data (files disk t) true).1 as [[]|] eqn:E.
  - rewrite IH by done. by apply legacy_store_frame.
  - rewrite IH by done. by apply legacy_store_frame.
  - cbn [snd]. by apply legacy_store_frame.
Qed.

Lemma exists_file_ext (d1 d2 : Disk) (t : string) (k : Kind) :
  d1 !! (t, k) = d2 !! (t, k) → exists_file d1 t k = exists_file d2 t k.
Proof. unfold exists_file. by intros ->. Qed.

Lemma batch_loop_success (types acc : list string) (disk : Disk) (l : list string) :
  (LegacyBatch.batch_loop types acc disk).1 = Some l →
  l = acc ++ filter (λ t, exists_file disk t Latest = true) types.
Proof.
  revert acc disk. induction types as [|t rest IH]; intros acc disk.
  { cbn. intros [= <-]. by rewrite app_nil_r. }
  rewrite batch_loop_cons.
  assert (filter (λ t0, exists_file (store disk t (merge_ufc_data (files disk t) true).2)
                          t0 Latest = true) rest
          = filter (λ t0, exists_file disk t0 Latest = true) rest) as Hf.
  { apply list_filter_iff. intros t0.
    rewrite (exists_file_ext _ disk); [done|]. apply legacy_store_frame. right. by left. }
  destruct (exists_file disk t Latest) eqn:Et.
  - rewrite filter_cons_True by done.
    pose proof (legacy_not_false (files disk t) true) as Hnf.
    destruct (merge_ufc_data (files disk t) true).1 as [[]|] eqn:E.
    + intros Hl. apply IH in Hl. rewrite Hl, Hf. by rewrite <- (assoc app).
    + exfalso. apply Hnf; [|done]. by apply (proj1 (exists_file_latest disk t)).
    + done.
  - rewrite filter_cons_False by by rewrite Et. apply IH.
Qed.

Lemma raises_store (disk : Disk) (t t' : string) :
  t' ≠ t →
  raises (store disk t (merge_ufc_data (files disk t) true).2) t' ↔ raises disk t'.
Proof.
  intros Hne. unfold raises.
  rewrite (exists_file_ext _ disk) by (apply legacy_store_frame; by left).
  rewrite files_store. by rewrite decide_False.
Qed.

Lemma batch_loop_raises (types acc : list string) (disk : Disk) :
  NoDup types →
  (LegacyBatch.batch_loop types acc disk).1 = None ↔ ∃ t, t ∈ types ∧ raises disk t.
Proof.
  revert acc disk. induction types as [|t rest IH]; intros acc disk Hnd.
  { cbn. split; [done|]. intros (t & Ht & _). by apply elem_of_nil in Ht. }
  apply NoDup_cons in Hnd as [Ht Hnd]. rewrite batch_loop_cons.
  assert ((∃ t0, t0 ∈ rest ∧
             raises (store disk t (merge_ufc_data (files disk t) true).2) t0)
          ↔ ∃ t0, t0 ∈ rest ∧ raises disk t0) as Hrest.
  { split; intros (t0 & Ht0 & Hr); exists t0; (split; [done|]);
      apply (raises_store disk t t0); try done; intros ->; done. }
  destruct (exists_file disk t Latest) eqn:Et.
  - destruct (merge_ufc_data (files disk t) true).1 as [[]|] eqn:E.
    + rewrite IH, Hrest by done. split.
      * intros (t0 & ? & ?). exists t0. split; [by right|done].
      * intros (t0 & [->|?]%elem_of_cons & Hr); [|by exists t0].
        destruct Hr as [_ Hr]. congruence.
    + rewrite IH, Hrest by done. split.
      * intros (t0 & ? & ?). exists t0. split; [by right|done].
      * intros (t0 & [->|?]%elem_of_cons & Hr); [|by exists t0].
        destruct Hr as [_ Hr]. congruence.
    + split; [|done]. intros _. exists t. split; [left|by split].
  - rewrite IH by done. split.
    + intros (t0 & ? & ?). exists t0. split; [by right|done].
    + intros (t0 & [->|?]%elem_of_cons & Hr); [|by exists t0].
      destruct Hr as [Hr _]. congruence.
Qed.

Lemma batch_loop_isolated (types acc : list string) (disk : Disk) (l : list string)
    (t : string) :
  NoDup types → (LegacyBatch.batch_loop types acc disk).1 = Some l → t ∈ types →
  files (LegacyBatch.batch_loop types acc disk).2 t
  = if exists_file disk t Latest then (merge_ufc_data (files disk t) true).2
    else files disk t.
Proof.
  revert acc disk. induction types as [|t0 rest IH]; intros acc disk Hnd Hl Ht.
  { by apply elem_of_nil in Ht. }
  apply NoDup_cons in Hnd as [Ht0 Hnd]. rewrite batch_loop_cons in Hl |- *.
  assert (∀ d, files (LegacyBatch.batch_loop rest acc d).2 t0 = files d t0) as Hsame.
  { intros d. unfold files. by rewrite !batch_loop_frame by by left. }
  assert (∀ acc' d, files (LegacyBatch.batch_loop rest acc' d).2 t0 = files d t0) as Hsame'.
  { intros acc' d. unfold files. by rewrite !batch_loop_frame by by left. }
  destruct (decide (t = t0)) as [->|Hne].
  - destruct (exists_file disk t0 Latest) eqn:Et; [|apply Hsame'].
    destruct (merge_ufc_data (files disk t0) true).1 as [[]|] eqn:E; [| |done].
    + rewrite Hsame', files_store. by rewrite decide_True.
    + rewrite Hsame', files_store. by rewrite decide_True.
  - apply elem_of_cons in Ht as [?|Ht]; [done|].
    destruct (exists_file disk t0 Latest) eqn:Et; [|by apply IH].
    assert (files (store disk t0 (merge_ufc_data (files disk t0) true).2) t = files disk t)
      as Hf by (rewrite files_store; by rewrite decide_False).
    assert (exists_file (store disk t0 (merge_ufc_data (files disk t0) true).2) t Latest
            = exists_file disk t Latest) as He.
    { apply exists_file_ext, legacy_store_frame. right. by left. }
    destruct (merge_ufc_data (files disk t0) true).1 as [[]|] eqn:E; [| |done].
    + rewrite IH by done. by rewrite Hf, He.
    + rewrite IH by done. by rewrite Hf, He.
Qed.

Lemma batch_loop_stops (types acc : list string) (disk : Disk) :
  NoDup types → (LegacyBatch.batch_loop types acc disk).1 = None →
  ∃ l1 t l2, types = l1 ++ t :: l2 ∧ raises disk t
    ∧ (∀ t', t' ∈ l1 → ¬ raises disk t')
    ∧ ∀ t' k, t' ∈ l2 →
        (LegacyBatch.batch_loop types acc disk).2 !! (t', k) = disk !! (t', k).
Proof.
  revert acc disk. induction types as [|t0 rest IH]; intros acc disk Hnd; [done|].
  apply NoDup_cons in Hnd as [Ht0 Hnd]. rewrite batch_loop_cons.
  assert (∀ acc', (LegacyBatch.batch_loop rest acc'
                     (store disk t0 (merge_ufc_data (files disk t0) true).2)).1 = None →
          (merge_ufc_data (files disk t0) true).1 ≠ None →
          ∃ l1 t l2, t0 :: rest = l1 ++ t :: l2 ∧ raises disk t
            ∧ (∀ t', t' ∈ l1 → ¬ raises disk t')
            ∧ ∀ t' k, t' ∈ l2 →
                (LegacyBatch.batch_loop rest acc'
                   (store disk t0 (merge_ufc_data (files disk t0) true).2)).2 !! (t', k)
                = disk !! (t', k)) as Hstep.
  { intros acc' Hn Hok. destruct (IH acc' _ Hnd Hn) as (l1 & t & l2 & -> & Hr & Hl1 & Hl2).
    assert (∀ t', t' ∈ l1 ++ t :: l2 → t' ≠ t0) as Hne by (intros t' ? ->; done).
    exists (t0 :: l1), t, l2. split_and!; [done| | |].
    - apply (raises_store disk t0 t); [|done]. apply Hne, elem_of_app. right. left.
    - intros t' [->|Ht']%elem_of_cons; [by intros [_ ?]|].
      intros Hr'. apply (Hl1 t' Ht'). apply raises_store; [|done].
      apply Hne, elem_of_app. by left.
    - intros t' k Ht'. rewrite Hl2 by done. apply legacy_store_frame. left.
      apply Hne, elem_of_app. right. by right. }
  destruct (exists_file disk t0 Latest) eqn:Et.
  - destruct (merge_ufc_data (files disk t0) true).1 as [[]|] eqn:E.
    + intros Hn. by apply Hstep.
    + intros Hn. by apply Hstep.
    + intros _. exists [], t0, rest. split_and!; [done|by split| |].
      * intros t' Ht'. by apply elem_of_nil in Ht'.
      * intros t' k Ht'. cbn [snd]. apply legacy_store_frame. left. by intros ->.
  - intros Hn. destruct (IH acc disk Hnd Hn) as (l1 & t & l2 & -> & Hr & Hl1 & Hl2).
    exists (t0 :: l1), t, l2. split_and!; [done|done| |done].
    intros t' [->|Ht']%elem_of_cons; [|by apply Hl1]. intros [? _]. congruence.
Qed.

Lemma NoDup_DATA_TYPES : NoDup DATA_TYPES.
Proof. by_computation. Qed.

(** X23. When [batch_process_ufc_data] returns, it lists exactly the data
    types that have a latest file, in order; each data type has been
    merged on its own files (or left alone, without a latest file), and
    no file of another name, and no latest, scraped or original file,
    has changed. *)
Theorem batch_process_ufc_data_success (disk : Disk) (l : list string) :
  (LegacyBatch.batch_process_ufc_data disk).1 = Some l →
  l = filter (λ t, exists_file disk t Latest = true) DATA_TYPES
  ∧ (∀ t, t ∈ DATA_TYPES →
          files (LegacyBatch.batch_process_ufc_data disk).2 t
          = if exists_file disk t Latest then (merge_ufc_data (files disk t) true).2
            else files disk t)
  ∧ ∀ t k, t ∉ DATA_TYPES ∨ k = Latest ∨ k = Raw ∨ k = Original →
           (LegacyBatch.batch_process_ufc_data disk).2 !! (t, k) = disk !! (t, k).
Proof.
  unfold LegacyBatch.batch_process_ufc_data. intros Hl. split_and!.
  - by apply batch_loop_success in Hl.
  - intros t Ht. by apply (batch_loop_isolated _ _ _ l); [apply NoDup_DATA_TYPES|..].
  - intros t k. apply batch_loop_frame.
Qed.

(** X24. [batch_process_ufc_data] raises exactly when the merge of some
    data type with a latest file raises on the files as they are before
    the batch.  It stops there: the first such data type ends the batch,
    and the files of the data types after it are left as they were. *)
Theorem batch_process_ufc_data_raises (disk : Disk) :
  ((LegacyBatch.batch_process_ufc_data disk).1 = None ↔
   ∃ t, t ∈ DATA_TYPES ∧ raises disk t)
  ∧ ((LegacyBatch.batch_process_ufc_data disk).1 = None →
     ∃ l1 t l2, DATA_TYPES = l1 ++ t :: l2 ∧ raises disk t
       ∧ (∀ t', t' ∈ l1 → ¬ raises disk t')
       ∧ ∀ t' k, t' ∈ l2 →
           (LegacyBatch.batch_process_ufc_data disk).2 !! (t', k) = disk !! (t', k)).
Proof.
  unfold LegacyBatch.batch_process_ufc_data. split.
  - apply batch_loop_raises, NoDup_DATA_TYPES.
  - apply batch_loop_stops, NoDup_DATA_TYPES.
Qed.

End LegacyBatchFacts.

Lemma batch_process_ufc_data_success_witness :
  ["ground_data"; "clinch_data"]
  = filter (λ t, Disk.exists_file ldisk_a t Disk.Latest = true) Disk.DATA_TYPES
  ∧ (∀ t, t ∈ Disk.DATA_TYPES →
          Disk.files (LegacyBatch.batch_process_ufc_data ldisk_a).2 t
          = if Disk.exists_file ldisk_a t Disk.Latest
            then (Legacy.merge_ufc_data (Disk.files ldisk_a t) true).2
            else Disk.files ldisk_a t)
  ∧ ∀ t k, t ∉ Disk.DATA_TYPES ∨ k = Disk.Latest ∨ k = Disk.Raw ∨ k = Disk.Original →
           (LegacyBatch.batch_process_ufc_data ldisk_a).2 !! (t, k) = ldisk_a !! (t, k).
Proof.
  apply (batch_process_ufc_data_success ldisk_a ["ground_data"; "clinch_data"]).
  vm_compute. reflexivity.
Defined.

(** ** The earlier script: the renaming loop *)

Section RenameFacts.
Import Disk.

Lemma lower_ascii_y a :
  LegacyBatch.lower_ascii a = "y"%char ↔ a = "y"%char ∨ a = "Y"%char.
Proof.
  destruct a as [[] [] [] [] [] [] [] []]; vm_compute;
    (split; [intros H; try discriminate H; (by left) || (by right)
            |intros [H|H]; try discriminate H; reflexivity]).
Qed.

Lemma lower_empty s : LegacyBatch.lower s = "" → s = "".
Proof. by destruct s. Qed.

Lemma lower_y s : LegacyBatch.lower s = "y" ↔ s = "y" ∨ s = "Y".
Proof.
  split.
  - destruct s as [|a t]; [done|]. cbn [LegacyBatch.lower]. intros E.
    injection E as Ha Ht. apply lower_empty in Ht as ->.
    apply lower_ascii_y in Ha as [-> | ->]; [by left|by right].
  - by intros [-> | ->].
Qed.

Variables src dst : Kind.
Hypothesis src_dst : src ≠ dst.

Local Abbreviation loop := (LegacyBatch.rename_loop src dst).

Lemma rename_loop_cons (t : string) (rest answers renamed : list string) (disk : Disk) :
  loop (t :: rest) answers renamed disk
  = match disk !! (t, src) with
    | Some content =>
        if exists_file disk t dst then
          match answers with
          | [] => (None, [], disk)
          | overwrite :: answers' =>
              if negb (String.eqb (LegacyBatch.lower overwrite) "y") then
                loop rest answers' renamed disk
              else loop rest answers' (renamed ++ [t]) (<[(t, dst) := content]> disk)
          end
        else loop rest answers (renamed ++ [t]) (<[(t, dst) := content]> disk)
    | None => loop rest answers renamed disk
    end.
Proof. done. Qed.

(** Only destination files change. *)
Lemma rename_loop_frame (types answers renamed : list string) (disk : Disk)
    (t : string) (k : Kind) :
  k ≠ dst → (loop types answers renamed disk).2 !! (t, k) = disk !! (t, k).
Proof.
  intros Hk. revert answers renamed disk.
  induction types as [|t0 rest IH]; intros answers renamed disk; [done|].
  rewrite rename_loop_cons. destruct (disk !! (t0, src)) as [content|]; [|apply IH].
  destruct (exists_file disk t0 dst).
  - destruct answers as [|a answers']; [done|].
    destruct (negb _); [apply IH|]. rewrite IH. apply lookup_insert_ne. congruence.
  - rewrite IH. apply lookup_insert_ne. congruence.
Qed.

(** A destination is left alone or becomes a copy of its source. *)
Lemma rename_loop_dst (types answers renamed : list string) (disk : Disk) (t : string) :
  (loop types answers renamed disk).2 !! (t, dst) = disk !! (t, dst)
  ∨ (t ∈ types ∧ is_Some (disk !! (t, src))
     ∧ (loop types answers renamed disk).2 !! (t, dst) = disk !! (t, src)).
Proof.
  revert answers renamed disk.
  induction types as [|t0 rest IH]; intros answers renamed disk; [by left|].
  assert (∀ answers' renamed' content,
            disk !! (t0, src) = Some content →
            (loop rest answers' renamed' (<[(t0, dst) := content]> disk)).2 !! (t, dst)
            = disk !! (t, dst)
            ∨ (t ∈ t0 :: rest ∧ is_Some (disk !! (t, src))
               ∧ (loop rest answers' renamed' (<[(t0, dst) := content]> disk)).2 !! (t, dst)
                 = disk !! (t, src))) as Hcopy.
  { intros answers' renamed' content Hc.
    destruct (IH answers' renamed' (<[(t0, dst) := content]> disk)) as [E|(Ht & Hs & E)].
    - destruct (decide (t = t0)) as [->|Hne].
      + right. split; [left|]. split; [by rewrite Hc|].
        by rewrite E, lookup_insert_eq.
      + left. rewrite E. apply lookup_insert_ne. congruence.
    - right. rewrite lookup_insert_ne in Hs, E by congruence.
      split; [by right|done]. }
  assert (∀ answers' renamed',
            (loop rest answers' renamed' disk).2 !! (t, dst) = disk !! (t, dst)
            ∨ (t ∈ t0 :: rest ∧ is_Some (disk !! (t, src))
               ∧ (loop rest answers' renamed' disk).2 !! (t, dst) = disk !! (t, src)))
    as Hskip.
  { intros answers' renamed'. destruct (IH answers' renamed' disk) as [E|(Ht & Hs & E)];
      [by left|right]. split; [by right|done]. }
  rewrite rename_loop_cons. destruct (disk !! (t0, src)) as [content|] eqn:Hc; [|apply Hskip].
  destruct (exists_file disk t0 dst).
  - destruct answers as [|a answers']; [by left|].
    destruct (negb _); [apply Hskip|by apply Hcopy].
  - by apply Hcopy.
Qed.

(** The data types reported are those copied. *)
Lemma rename_loop_renamed (types answers renamed : list string) (disk : Disk)
    (l : list string) :
  (loop types answers renamed disk).1.1 = Some l →
  ∃ more, l = renamed ++ more
    ∧ ∀ t, t ∈ more →
        t ∈ types ∧ is_Some (disk !! (t, src))
        ∧ (loop types answers renamed disk).2 !! (t, dst) = disk !! (t, src).
Proof.
  revert answers renamed disk.
  induction types as [|t0 rest IH]; intros answers renamed disk.
  { cbn. intros [= <-]. exists []. split; [by rewrite app_nil_r|].
    intros t Ht. by apply elem_of_nil in Ht. }
  assert (∀ answers' renamed',
            (loop rest answers' renamed' disk).1.1 = Some l →
            ∃ more, l = renamed' ++ more
              ∧ ∀ t, t ∈ more →
                  t ∈ t0 :: rest ∧ is_Some (disk !! (t, src))
                  ∧ (loop rest answers' renamed' disk).2 !! (t, dst) = disk !! (t, src))
    as Hskip.
  { intros answers' renamed' Hl. destruct (IH _ _ _ Hl) as (more & -> & Hm).
    exists more. split; [done|]. intros t Ht. destruct (Hm t Ht) as (? & ? & ?).
    split; [by right|done]. }
  assert (∀ answers' content,
            disk !! (t0, src) = Some content →
            (loop rest answers' (renamed ++ [t0]) (<[(t0, dst) := content]> disk)).1.1
            = Some l →
            ∃ more, l = renamed ++ more
              ∧ ∀ t, t ∈ more →
                  t ∈ t0 :: rest ∧ is_Some (disk !! (t, src))
                  ∧ (loop rest answers' (renamed ++ [t0])
                       (<[(t0, dst) := content]> disk)).2 !! (t, dst) = disk !! (t, src))
    as Hcopy.
  { intros answers' content Hc Hl. destruct (IH _ _ _ Hl) as (more & -> & Hm).
    exists (t0 :: more). split; [by rewrite <- (assoc app)|].
    intros t [->|Ht]%elem_of_cons.
    - split; [left|]. split; [by rewrite Hc|].
      destruct (rename_loop_dst rest answers' (renamed ++ [t0])
                  (<[(t0, dst) := content]> disk) t0) as [E|(_ & _ & E)].
      + by rewrite E, lookup_insert_eq.
      + rewrite E. apply lookup_insert_ne. congruence.
    - destruct (Hm t Ht) as (? & Hs & E). rewrite lookup_insert_ne in Hs, E by congruence.
      split; [by right|done]. }
  rewrite rename_loop_cons. destruct (disk !! (t0, src)) as [content|] eqn:Hc; [|apply Hskip].
  destruct (exists_file disk t0 dst).
  - destruct answers as [|a answers']; [done|].
    destruct (negb _); [apply Hskip|by apply Hcopy].
  - by apply Hcopy.
Qed.

(** Without a yes no existing destination is overwritten. *)
Lemma rename_loop_no_yes (types answers renamed : list string) (disk : Disk) (t : string) :
  (∀ a, a ∈ answers → a ≠ "y" ∧ a ≠ "Y") →
  is_Some (disk !! (t, dst)) →
  (loop types answers renamed disk).2 !! (t, dst) = disk !! (t, dst).
Proof.
  revert answers renamed disk.
  induction types as [|t0 rest IH]; intros answers renamed disk Hno Ht; [done|].
  rewrite rename_loop_cons. destruct (disk !! (t0, src)) as [content|] eqn:Hc; [|by apply IH].
  destruct (exists_file disk t0 dst) eqn:Hex.
  - destruct answers as [|a answers']; [done|].
    assert (∀ a', a' ∈ answers' → a' ≠ "y" ∧ a' ≠ "Y") as Hno'
      by (intros a' ?; apply Hno; by right).
    destruct (String.eqb_spec (LegacyBatch.lower a) "y") as [E|E]; cbn [negb].
    + apply lower_y in E. destruct (Hno a) as [? ?]; [left|]. by destruct E.
    + by apply IH.
  - assert (t ≠ t0) as Hne.
    { intros ->. unfold exists_file in Hex. by apply bool_decide_eq_false in Hex. }
    rewrite IH; [apply lookup_insert_ne; congruence|done|].
    rewrite lookup_insert_ne by congruence. done.
Qed.

(** Where no destination exists nothing is asked. *)
Lemma rename_loop_fresh (types answers renamed : list string) (disk : Disk) :
  NoDup types →
  (∀ t, t ∈ types → is_Some (disk !! (t, src)) → disk !! (t, dst) = None) →
  (loop types answers renamed disk).1
  = (Some (renamed ++ filter (λ t, is_Some (disk !! (t, src))) types), answers).
Proof.
  revert answers renamed disk.
  induction types as [|t0 rest IH]; intros answers renamed disk Hnd Hfresh.
  { cbn. by rewrite app_nil_r. }
  apply NoDup_cons in Hnd as [Ht0 Hnd].
  rewrite rename_loop_cons. destruct (disk !! (t0, src)) as [content|] eqn:Hc.
  - rewrite filter_cons_True by by rewrite Hc.
    assert (exists_file disk t0 dst = false) as ->.
    { unfold exists_file. apply bool_decide_eq_false. rewrite Hfresh; [by intros []|left|].
      by rewrite Hc. }
    rewrite IH; [|done|].
    + rewrite <- (assoc app). do 3 f_equal. cbn [app]. f_equal.
      apply list_filter_iff. intros t. by rewrite lookup_insert_ne by congruence.
    + intros t Ht Hs. assert (t ≠ t0) as Hne by (intros ->; done).
      rewrite lookup_insert_ne in Hs |- * by congruence. apply Hfresh; [by right|done].
  - rewrite filter_cons_False by (rewrite Hc; by intros []).
    apply IH; [done|]. intros t Ht. apply Hfresh. by right.
Qed.

End RenameFacts.

(** ** The earlier script: the two renaming helpers *)

Section RenameTheorems.
Import Disk.

Lemma Raw_Latest : Raw ≠ Latest.
Proof. done. Qed.

Lemma Original_Living : Original ≠ Living.
Proof. done. Qed.

(** X25. The two renaming helpers copy.  Files of every kind but the
    destination, the source among them, stay as they are; a destination
    is either left as it was or made a copy of the source of a data type
    that has one; and every data type reported has its destination equal
    to its source. *)
Theorem rename_copies (answers : list string) (disk : Disk) :
  ((∀ t k, k ≠ Latest →
           (LegacyBatch.rename_current_to_latest answers disk).2 !! (t, k) = disk !! (t, k))
   ∧ (∀ t, (LegacyBatch.rename_current_to_latest answers disk).2 !! (t, Latest)
           = disk !! (t, Latest)
           ∨ (t ∈ DATA_TYPES ∧ is_Some (disk !! (t, Raw))
              ∧ (LegacyBatch.rename_current_to_latest answers disk).2 !! (t, Latest)
                = disk !! (t, Raw)))
   ∧ (∀ l t, (LegacyBatch.rename_current_to_latest answers disk).1.1 = Some l → t ∈ l →
             t ∈ DATA_TYPES ∧ is_Some (disk !! (t, Raw))
             ∧ (LegacyBatch.rename_current_to_latest answers disk).2 !! (t, Latest)
               = disk !! (t, Raw)))
  ∧
  ((∀ t k, k ≠ Living →
           (LegacyBatch.rename_original_to_living answers disk).2 !! (t, k) = disk !! (t, k))
   ∧ (∀ t, (LegacyBatch.rename_original_to_living answers disk).2 !! (t, Living)
           = disk !! (t, Living)
           ∨ (t ∈ DATA_TYPES ∧ is_Some (disk !! (t, Original))
              ∧ (LegacyBatch.rename_original_to_living answers disk).2 !! (t, Living)
                = disk !! (t, Original)))
   ∧ (∀ l t, (LegacyBatch.rename_original_to_living answers disk).1.1 = Some l → t ∈ l →
             t ∈ DATA_TYPES ∧ is_Some (disk !! (t, Original))
             ∧ (LegacyBatch.rename_original_to_living answers disk).2 !! (t, Living)
               = disk !! (t, Original))).
Proof.
  unfold LegacyBatch.rename_current_to_latest, LegacyBatch.rename_original_to_living.
  split; split_and!.
  - intros t k. by apply rename_loop_frame.
  - intros t. apply rename_loop_dst, Raw_Latest.
  - intros l t Hl Ht.
    destruct (rename_loop_renamed _ _ Raw_Latest _ _ _ _ _ Hl) as (more & -> & Hm).
    by apply Hm.
  - intros t k. by apply rename_loop_frame.
  - intros t. apply rename_loop_dst, Original_Living.
  - intros l t Hl Ht.
    destruct (rename_loop_renamed _ _ Original_Living _ _ _ _ _ Hl) as (more & -> & Hm).
    by apply Hm.
Qed.

(** X26. An existing destination is overwritten only on the answer y
    or Y: when no answer is one of the two, every destination that
    existed is as it was. *)
Theorem rename_asks_before_overwriting (answers : list string) (disk : Disk) (t : string) :
  (∀ a, a ∈ answers → a ≠ "y" ∧ a ≠ "Y") →
  (is_Some (disk !! (t, Latest)) →
   (LegacyBatch.rename_current_to_latest answers disk).2 !! (t, Latest)
   = disk !! (t, Latest))
  ∧ (is_Some (disk !! (t, Living)) →
     (LegacyBatch.rename_original_to_living answers disk).2 !! (t, Living)
     = disk !! (t, Living)).
Proof.
  intros Hno. split; intros Ht.
  - by apply rename_loop_no_yes.
  - by apply rename_loop_no_yes.
Qed.

(** X27. Where no data type has both a source and a destination, the
    helpers ask nothing (the answers are all left) and report exactly
    the data types that have a source. *)
Theorem rename_without_question (answers : list string) (disk : Disk) :
  ((∀ t, t ∈ DATA_TYPES → is_Some (disk !! (t, Raw)) → disk !! (t, Latest) = None) →
   (LegacyBatch.rename_current_to_latest answers disk).1
   = (Some (filter (λ t, is_Some (disk !! (t, Raw))) DATA_TYPES), answers))
  ∧ ((∀ t, t ∈ DATA_TYPES → is_Some (disk !! (t, Original)) → disk !! (t, Living) = None) →
     (LegacyBatch.rename_original_to_living answers disk).1
     = (Some (filter (λ t, is_Some (disk !! (t, Original))) DATA_TYPES), answers)).
Proof.
  split; intros Hfresh.
  - apply (rename_loop_fresh Raw Latest Raw_Latest DATA_TYPES answers [] disk);
      [apply NoDup_DATA_TYPES|done].
  - apply (rename_loop_fresh Original Living Original_Living DATA_TYPES answers [] disk);
      [apply NoDup_DATA_TYPES|done].
Qed.

End RenameTheorems.

Lemma rename_asks_before_overwriting_witness :
  (is_Some (disk_raw !! ("ground_data", Disk.Latest)) →
   (LegacyBatch.rename_current_to_latest ["n"] disk_raw).2 !! ("ground_data", Disk.Latest)
   = disk_raw !! ("ground_data", Disk.Latest))
  ∧ (is_Some (disk_raw !! ("ground_data", Disk.Living)) →
     (LegacyBatch.rename_original_to_living ["n"] disk_raw).2 !! ("ground_data", Disk.Living)
     = disk_raw !! ("ground_data", Disk.Living)).
Proof.
  apply (rename_asks_before_overwriting ["n"] disk_raw "ground_data").
  intros a Ha. apply list_elem_of_singleton in Ha as ->. by split.
Defined.

(** ** The runner: [prepare_files] *)

Section RunnerFacts.
Import Disk.

Lemma prepare_foldl (types renamed : list string) (disk : Disk) :
  (foldl Runner.prepare_step (renamed, disk) types).1
  = renamed ++ filter (λ t, is_Some (disk !! (t, Raw))) types
  ∧ ∀ t k, (foldl Runner.prepare_step (renamed, disk) types).2 !! (t, k)
           = if decide (k = Latest ∧ t ∈ types ∧ is_Some (disk !! (t, Raw)))
             then disk !! (t, Raw) else disk !! (t, k).
Proof.
  revert renamed disk. induction types as [|t0 rest IH]; intros renamed disk.
  { cbn. split; [by rewrite app_nil_r|]. intros t k.
    rewrite decide_False; [done|]. intros (_ & Ht & _). by apply elem_of_nil in Ht. }
  cbn [foldl Runner.prepare_step]. destruct (disk !! (t0, Raw)) as [content|] eqn:Hc.
  - destruct (IH (renamed ++ [t0]) (<[(t0, Latest) := content]> disk)) as [H1 H2].
    split.
    + rewrite H1, filter_cons_True by by rewrite Hc. rewrite <- (assoc app). cbn [app].
      do 2 f_equal. apply list_filter_iff. intros t. by rewrite lookup_insert_ne.
    + intros t k. rewrite H2. rewrite (lookup_insert_ne _ (t0, Latest) (t, Raw)) by done.
      destruct (decide (k = Latest ∧ t ∈ rest ∧ is_Some (disk !! (t, Raw))))
        as [(-> & Ht & Hs)|Hn].
      * rewrite decide_True; [done|]. split; [done|]. split; [by right|done].
      * destruct (decide ((t0, Latest) = (t, k))) as [E|E].
        -- injection E as <- <-. rewrite lookup_insert_eq.
           rewrite decide_True; [done|]. split; [done|]. split; [left|by rewrite Hc].
        -- rewrite lookup_insert_ne by done. rewrite decide_False; [done|].
           intros (-> & [->|Ht]%elem_of_cons & Hs); [done|]. by apply Hn.
  - destruct (IH renamed disk) as [H1 H2]. split.
    + rewrite H1, filter_cons_False; [done|]. rewrite Hc. by intros [].
    + intros t k. rewrite H2.
      destruct (decide (k = Latest ∧ t ∈ rest ∧ is_Some (disk !! (t, Raw))))
        as [(-> & Ht & Hs)|Hn].
      * rewrite decide_True; [done|]. split; [done|]. split; [by right|done].
      * rewrite decide_False; [done|].
        intros (-> & [->|Ht]%elem_of_cons & Hs); [|by apply Hn].
        rewrite Hc in Hs. by destruct Hs.
Qed.

(** X28. [prepare_files] reports the data types that have a freshly
    scraped file and replaces the latest file of each by it, without
    asking; every other file stays as it is. *)
Theorem prepare_files_copies (disk : Disk) :
  (Runner.prepare_files disk).1 = filter (λ t, is_Some (disk !! (t, Raw))) DATA_TYPES
  ∧ ∀ t k, (Runner.prepare_files disk).2 !! (t, k)
           = if decide (k = Latest ∧ t ∈ DATA_TYPES ∧ is_Some (disk !! (t, Raw)))
             then disk !! (t, Raw) else disk !! (t, k).
Proof. apply (prepare_foldl DATA_TYPES [] disk). Qed.

Variable set_order : gset cell → list cell.


End RunnerFacts.

